(** * NorrisBot: a shallow embedding of lib/norrisbot.js

    The bot is a Slack client that answers messages mentioning Chuck Norris
    with a joke taken from an SQLite store.  This development embeds the
    methods of [NorrisBot.prototype] as functions over an explicit world
    (the fields of the bot object, the store, the messages posted and the
    console) and proves the properties of the message filter, of the joke
    selection and of the start-up sequence.

    Conventions.
    - A JavaScript string is the list of its code units; the model covers
      the code units below 256, on which [String.prototype.toLowerCase]
      works unit by unit.
    - What the engine answers ([err], the row order of [RANDOM()]) and
      what the clock reads are arguments of the method.  The methods
      [_firstRunCheck] and [_replyWithRandomJoke] are embedded with the
      callback of their query run, and its statement applied, where the
      query is issued: the bot on a quiet line.  The message handler is
      also embedded step by step ([step], [steps]), with the queries and
      statements that wait for the engine, for the lines that are not
      quiet.
    - An INTEGER column reaches JavaScript as a double ([to_double]).
    - An uncaught JavaScript exception is the outcome [Throw]; the call
      [process.exit(1)] is the outcome [Exit 1]. *)

From Stdlib Require Import ZArith List String Ascii Bool Lia.
Import ListNotations.

Local Open Scope string_scope.
Local Open Scope Z_scope.

(** ** JavaScript strings *)

Module JsString.

(** One code unit of [toLowerCase]: A-Z and the capital letters of the
    Latin-1 supplement (U+00C0..U+00DE except the sign U+00D7) move up by
    32, every other unit below 256 is its own lower case. *)
Definition lower_unit (c : ascii) : ascii :=
  let n := Z.of_N (N_of_ascii c) in
  if ((65 <=? n) && (n <=? 90))
     || ((192 <=? n) && (n <=? 222) && negb (n =? 215))
  then ascii_of_N (Z.to_N (n + 32))
  else c.

Fixpoint toLowerCase (s : string) : string :=
  match s with
  | EmptyString => EmptyString
  | String c s' => String (lower_unit c) (toLowerCase s')
  end.

(** [startsAt pat s]: [pat] occurs in [s] at position 0. *)
Fixpoint startsAt (pat s : string) : bool :=
  match pat, s with
  | EmptyString, _ => true
  | String _ _, EmptyString => false
  | String a pat', String b s' => Ascii.eqb a b && startsAt pat' s'
  end.

(** [s.indexOf(pat)]: the least position where [pat] occurs in [s],
    or -1.  [k] is the position of the head of [s] in the whole string. *)
Fixpoint indexOf_from (k : Z) (s pat : string) : Z :=
  if startsAt pat s then k
  else match s with
       | EmptyString => -1
       | String _ s' => indexOf_from (k + 1) s' pat
       end.

Definition indexOf (s pat : string) : Z := indexOf_from 0 s pat.

(** [s] has [pat] as a contiguous part. *)
Definition contains (s pat : string) : Prop :=
  exists pre post, s = pre ++ pat ++ post.

End JsString.
Import JsString.

(** ** JavaScript values carried by an event *)

(** The value of a property of a parsed RTM event.  [JUndefined] is an
    absent property, [JObject] any object or array. *)
Inductive jsval : Type :=
| JUndefined
| JNull
| JBool (b : bool)
| JNum (z : Z)
| JStr (s : string)
| JObject.

(** [Boolean(v)]. *)
Definition truthy (v : jsval) : bool :=
  match v with
  | JUndefined | JNull => false
  | JBool b => b
  | JNum z => negb (z =? 0)
  | JStr s => negb (String.eqb s "")
  | JObject => true
  end.

(** [v === s] for a string [s]. *)
Definition strict_eq_str (v : jsval) (s : string) : bool :=
  match v with
  | JStr t => String.eqb t s
  | _ => false
  end.

(** [typeof v === 'string']. *)
Definition is_string (v : jsval) : bool :=
  match v with
  | JStr _ => true
  | _ => false
  end.

(** [v[0] === 'C'] for a value already known to be a string. *)
Definition first_unit_is_C (v : jsval) : bool :=
  match v with
  | JStr (String c _) => Ascii.eqb c "C"%char
  | _ => false
  end.

(** ** The data the bot works on *)

(** A member and a channel of the roster the Slack client downloads. *)
Record User : Type := { user_id : string; user_name : string }.
Record Channel : Type := { channel_id : string; channel_name : string }.

(** A real time event; the four properties the bot reads. *)
Record Message : Type :=
  { msg_type : jsval; msg_text : jsval; msg_channel : jsval; msg_user : jsval }.

(** Rows of the tables [info(name, val)] and [jokes(id, joke, used)]. *)
Record InfoRow : Type := { row_name : string; row_val : string }.
Record JokeRow : Type := { row_id : Z; row_joke : string; row_used : Z }.

(** The statements the bot runs through [db.run]. *)
Inductive Stmt : Type :=
| InsertLastrun (val : string)
| UpdateLastrun (val : string)
| UpdateUsed (id : Z).

(** The store: both tables and the statements run so far, oldest first. *)
Record Database : Type :=
  { info : list InfoRow; jokes : list JokeRow; journal : list Stmt }.

(** One call of [postMessageToChannel(name, text, {as_user: ...})]. *)
Record Post : Type :=
  { post_channel : string; post_text : string; post_as_user : bool }.

(** The settings object given to the constructor. *)
Record Settings : Type :=
  { settings_token : string;
    settings_dbPath : option string;
    settings_name : option string }.

(** The bot object together with what it has sent out: [name], [users] and
    [channels] are the fields the Slack client fills in, [user] and [db]
    are [None] while they are [null] or [undefined]. *)
Record World : Type :=
  { name : string;
    dbPath : string;
    users : list User;
    channels : list Channel;
    user : option User;
    db : option Database;
    outbox : list Post;
    console : list (list string) }.

Definition set_user (u : option User) (w : World) : World :=
  {| name := name w; dbPath := dbPath w; users := users w;
     channels := channels w; user := u; db := db w;
     outbox := outbox w; console := console w |}.

Definition set_db (d : option Database) (w : World) : World :=
  {| name := name w; dbPath := dbPath w; users := users w;
     channels := channels w; user := user w; db := d;
     outbox := outbox w; console := console w |}.

Definition add_post (p : Post) (w : World) : World :=
  {| name := name w; dbPath := dbPath w; users := users w;
     channels := channels w; user := user w; db := db w;
     outbox := outbox w ++ [p]; console := console w |}.

Definition add_console (line : list string) (w : World) : World :=
  {| name := name w; dbPath := dbPath w; users := users w;
     channels := channels w; user := user w; db := db w;
     outbox := outbox w; console := console w ++ [line] |}.

(** [x || dflt] for an optional string: the empty string is falsy too. *)
Definition or_default (x : option string) (dflt : string) : string :=
  match x with
  | Some s => if String.eqb s "" then dflt else s
  | None => dflt
  end.

(** The constructor.  [default_db_path] stands for
    [path.resolve(process.cwd(), 'data', 'norrisbot.db')].  The field
    [name] is the one the Slack client copies from [settings.name] when
    [run] calls the base constructor. *)
Definition Constructor (settings : Settings) (default_db_path : string) : World :=
  {| name := or_default (settings_name settings) "norrisbot";
     dbPath := or_default (settings_dbPath settings) default_db_path;
     users := []; channels := [];
     user := None; db := None;
     outbox := []; console := [] |}.

(** ** Outcomes and the monad of methods *)

Inductive exn : Type := TypeError.

Inductive outcome (A : Type) : Type :=
| Ret (a : A)
| Throw (e : exn)
| Exit (code : Z).
Arguments Ret {A} a.
Arguments Throw {A} e.
Arguments Exit {A} code.

(** A method: from the world before to its outcome and the world after. *)
Definition M (A : Type) : Type := World -> outcome A * World.

Definition ret {A} (a : A) : M A := fun w => (Ret a, w).

Definition bind {A B} (m : M A) (k : A -> M B) : M B :=
  fun w =>
    match m w with
    | (Ret a, w') => k a w'
    | (Throw e, w') => (Throw e, w')
    | (Exit c, w') => (Exit c, w')
    end.

Definition throw {A} (e : exn) : M A := fun w => (Throw e, w).
Definition process_exit {A} (code : Z) : M A := fun w => (Exit code, w).
Definition gets {A} (f : World -> A) : M A := fun w => (Ret (f w), w).
Definition modify (f : World -> World) : M unit := fun w => (Ret tt, f w).

Declare Scope js_scope.
Delimit Scope js_scope with js.
Notation "x <- m ;; k" := (bind m (fun x => k))
  (at level 100, m at next level, right associativity) : js_scope.
Notation "m ;; k" := (bind m (fun _ => k))
  (at level 100, right associativity) : js_scope.
Local Open Scope js_scope.

(** Reading a property of a value that may be [undefined] or [null]. *)
Definition deref {A} (x : option A) : M A :=
  match x with
  | Some a => ret a
  | None => throw TypeError
  end.

(** [a && b] where [b] is evaluated only if [a] is true. *)
Definition andM (a b : M bool) : M bool :=
  x <- a ;; if x then b else ret false.

(** [a || b] where [b] is evaluated only if [a] is false. *)
Definition orM (a b : M bool) : M bool :=
  x <- a ;; if x then ret true else b.

Definition notM (a : M bool) : M bool :=
  x <- a ;; ret (negb x).

Definition console_error (line : list string) : M unit :=
  modify (add_console line).

Definition postMessageToChannel (chan text : string) (as_user : bool) : M unit :=
  modify (add_post {| post_channel := chan; post_text := text;
                      post_as_user := as_user |}).

(** ** The queries and statements of the store *)

Module Sql.

(** [SELECT val FROM info WHERE name = "lastrun" LIMIT 1]. *)
Definition select_lastrun (d : Database) : option string :=
  option_map row_val
    (find (fun r => String.eqb (row_name r) "lastrun") (info d)).

(** A joke row with its two sort keys, [used] and the value [RANDOM()]
    took for the row. *)
Definition keyed : Type := (Z * Z * JokeRow)%type.

(** Row [i] of the table draws [rnd i]. *)
Fixpoint with_keys (rnd : nat -> Z) (i : nat) (rows : list JokeRow)
  : list keyed :=
  match rows with
  | [] => []
  | r :: rows' => (row_used r, rnd i, r) :: with_keys rnd (S i) rows'
  end.

(** [used ASC, RANDOM()]: by [used], then by the random key. *)
Definition key_le (a b : keyed) : bool :=
  let '(ua, ra, _) := a in
  let '(ub, rb, _) := b in
  (ua <? ub) || ((ua =? ub) && (ra <=? rb)).

Fixpoint insert_by (x : keyed) (l : list keyed) : list keyed :=
  match l with
  | [] => [x]
  | y :: l' => if key_le x y then x :: l else y :: insert_by x l'
  end.

(** [ORDER BY used ASC, RANDOM()]. *)
Definition order_by (l : list keyed) : list keyed :=
  fold_right insert_by [] l.

(** The row [... FROM jokes ORDER BY used ASC, RANDOM() LIMIT 1] reads. *)
Definition least_used_row (rnd : nat -> Z) (d : Database) : option JokeRow :=
  option_map snd (hd_error (order_by (with_keys rnd 0 (jokes d)))).

(** [SELECT id, joke ...]: the two columns of the row, as the engine
    holds them. *)
Definition select_least_used (rnd : nat -> Z) (d : Database)
  : option (Z * string) :=
  option_map (fun r => (row_id r, row_joke r)) (least_used_row rnd d).

(** [UPDATE jokes SET used = used + 1 WHERE id = ?] on one row. *)
Definition bump (id : Z) (r : JokeRow) : JokeRow :=
  if row_id r =? id
  then {| row_id := row_id r; row_joke := row_joke r;
          row_used := row_used r + 1 |}
  else r.

(** [UPDATE info SET val = ? WHERE name = "lastrun"] on one row. *)
Definition touch (val : string) (r : InfoRow) : InfoRow :=
  if String.eqb (row_name r) "lastrun"
  then {| row_name := row_name r; row_val := val |}
  else r.

(** [db.run(stmt)]: the statement applied and noted in the journal. *)
Definition run (s : Stmt) (d : Database) : Database :=
  match s with
  | InsertLastrun val =>
      {| info := info d ++ [{| row_name := "lastrun"; row_val := val |}];
         jokes := jokes d; journal := journal d ++ [s] |}
  | UpdateLastrun val =>
      {| info := map (touch val) (info d);
         jokes := jokes d; journal := journal d ++ [s] |}
  | UpdateUsed id =>
      {| info := info d;
         jokes := map (bump id) (jokes d); journal := journal d ++ [s] |}
  end.

End Sql.

(** [self.db.get] and [self.db.run] read the field [db] first. *)
Definition the_db : M Database :=
  d <- gets db ;; deref d.

Definition db_run (s : Stmt) : M unit :=
  d <- the_db ;; modify (set_db (Some (Sql.run s d))).

(** ** The methods of NorrisBot.prototype *)

Definition _loadBotUser : M unit :=
  self_name <- gets name ;;
  all <- gets users ;;
  modify (set_user
            (hd_error (filter (fun u => String.eqb (user_name u) self_name) all))).

Definition quote : string := String (ascii_of_nat 34) EmptyString.

(** [disk] is the store found at [dbPath], [None] when
    [fs.existsSync(this.dbPath)] is false. *)
Definition _connectDb (disk : option Database) : M unit :=
  match disk with
  | None =>
      path <- gets dbPath ;;
      console_error ["Database path " ++ quote ++ path ++ quote
                     ++ " does not exist or it's not ReadableStream."] ;;
      process_exit 1
  | Some d => modify (set_db (Some d))
  end.

Definition newline : string := String (ascii_of_nat 10) EmptyString.

Definition welcome_text (self_name : string) : string :=
  "Hi guys, roundhouse-kick anyone?" ++ newline
  ++ " I can tell jokes, but very honest ones. Just say `Chuck Norris` or `"
  ++ self_name ++ "` to invoke me!".

Definition _welcomeMessage : M unit :=
  chans <- gets channels ;;
  first <- deref (hd_error chans) ;;
  self_name <- gets name ;;
  postMessageToChannel (channel_name first) (welcome_text self_name) true.

(** [err] is the error the engine reports for the query, [now] is
    [(new Date()).toJSON()]. *)
Definition _firstRunCheck (err : option string) (now : string) : M unit :=
  d <- the_db ;;
  match err with
  | Some e => console_error ["DATABASE ERROR:"; e]
  | None =>
      match Sql.select_lastrun d with
      | None =>
          _welcomeMessage ;;
          db_run (InsertLastrun now)
      | Some _ => db_run (UpdateLastrun now)
      end
  end.

Definition _onStart (disk : option Database) (err : option string)
           (now : string) : M unit :=
  _loadBotUser ;;
  _connectDb disk ;;
  _firstRunCheck err now.

Definition _isChatMessage (message : Message) : bool :=
  strict_eq_str (msg_type message) "message" && truthy (msg_text message).

Definition _isChannelConversation (message : Message) : bool :=
  is_string (msg_channel message) && first_unit_is_C (msg_channel message).

Definition _isFromNorrisBot (message : Message) : M bool :=
  u <- gets user ;;
  me <- deref u ;;
  ret (strict_eq_str (msg_user message) (user_id me)).

(** [message.text.toLowerCase()]. *)
Definition text_toLowerCase (message : Message) : M string :=
  match msg_text message with
  | JStr s => ret (toLowerCase s)
  | _ => throw TypeError
  end.

Definition _isMentioningChuckNorris (message : Message) : M bool :=
  orM (lowered <- text_toLowerCase message ;;
       ret (indexOf lowered "chuck norris" >? -1))
      (lowered <- text_toLowerCase message ;;
       self_name <- gets name ;;
       ret (indexOf lowered self_name >? -1)).

Definition _getChannelById (channelId : jsval) : M (option Channel) :=
  chans <- gets channels ;;
  ret (hd_error
         (filter (fun item => strict_eq_str channelId (channel_id item)) chans)).

(** The JavaScript number the driver makes of an INTEGER column: the
    nearest double, ties to the even mantissa.  Integers of at most 53
    bits are kept; above, the low bits are rounded away. *)
Definition to_double (z : Z) : Z :=
  let a := Z.abs z in
  let bits := Z.log2 a + 1 in
  if bits <=? 53 then z
  else
    let s := bits - 53 in
    let q := Z.shiftr a s in
    let rest := Z.land a (Z.ones s) in
    let half := Z.shiftl 1 (s - 1) in
    let q' := if (half <? rest) || ((rest =? half) && Z.odd q)
              then q + 1 else q in
    Z.sgn z * Z.shiftl q' s.
Arguments to_double : simpl never.

(** The row object the callback receives: [record.id] is a number,
    [record.joke] a string. *)
Definition row_object (row : Z * string) : Z * string :=
  (to_double (fst row), snd row).

(** [err] is the error the engine reports for the query and [rnd] the
    values [RANDOM()] takes, row by row. *)
Definition _replyWithRandomJoke (err : option string) (rnd : nat -> Z)
           (originalMessage : Message) : M unit :=
  d <- the_db ;;
  match err with
  | Some e => console_error ["DATABASE ERROR:"; e]
  | None =>
      let record := option_map row_object (Sql.select_least_used rnd d) in
      channel <- _getChannelById (msg_channel originalMessage) ;;
      chan <- deref channel ;;
      row <- deref record ;;
      postMessageToChannel (channel_name chan) (snd row) true ;;
      db_run (UpdateUsed (fst row))
  end.

(** The condition of the [if] in [_onMessage]. *)
Definition onMessage_test (message : Message) : M bool :=
  andM (andM (andM (ret (_isChatMessage message))
                   (ret (_isChannelConversation message)))
             (notM (_isFromNorrisBot message)))
       (_isMentioningChuckNorris message).

Definition _onMessage (err : option string) (rnd : nat -> Z)
           (message : Message) : M unit :=
  go <- onMessage_test message ;;
  if go then _replyWithRandomJoke err rnd message else ret tt.

(** ** The predicates of the message filter, as propositions *)

(** The text of an event is a string when it is there. *)
Definition text_typed (m : Message) : Prop :=
  msg_text m = JUndefined \/ exists s, msg_text m = JStr s.

(** The event is a message and carries a non-empty text. *)
Definition isChatMessage_holds (m : Message) : Prop :=
  msg_type m = JStr "message" /\ exists s, msg_text m = JStr s /\ s <> "".

(** The channel id is there and starts with the prefix of public
    channels. *)
Definition isChannelConversation_holds (m : Message) : Prop :=
  exists rest, msg_channel m = JStr (String "C"%char rest).

(** The sender is not the bot. *)
Definition isNotSelf_holds (me : User) (m : Message) : Prop :=
  msg_user m <> JStr (user_id me).

(** What line 151 tests: the lowered text contains the phrase, or
    contains the name of the bot as it is configured, not lowered.  This
    is the test of the code, not the trigger of the specification, which
    is [mentionsTrigger_spec] below. *)
Definition mentions_holds (self_name : string) (m : Message) : Prop :=
  exists s, msg_text m = JStr s /\
            (contains (toLowerCase s) "chuck norris"
             \/ contains (toLowerCase s) self_name).

(** The four conjuncts of the condition of [_onMessage], as the code
    computes them. *)
Definition all_four_hold (w : World) (me : User) (m : Message) : Prop :=
  isChatMessage_holds m /\ isChannelConversation_holds m
  /\ isNotSelf_holds me m /\ mentions_holds (name w) m.

(** The trigger as the specification words it: the text contains the
    phrase in any letter case, or the display name in any letter case. *)
Definition mentionsTrigger_spec (self_name text : string) : Prop :=
  (exists written, contains text written
                   /\ toLowerCase written = "chuck norris")
  \/ (exists written, contains text written
                      /\ toLowerCase written = toLowerCase self_name).

(** The four predicates as the specification words them, the fourth being
    the trigger above. *)
Definition four_predicates_spec (w : World) (me : User) (m : Message) : Prop :=
  isChatMessage_holds m /\ isChannelConversation_holds m
  /\ isNotSelf_holds me m
  /\ exists s, msg_text m = JStr s /\ mentionsTrigger_spec (name w) s.

(** ** Worlds and events used in the examples *)

Definition mk_message (type text channel user : jsval) : Message :=
  {| msg_type := type; msg_text := text;
     msg_channel := channel; msg_user := user |}.

(** The event of the filter's example. *)
Definition example_event : Message :=
  mk_message (JStr "message") (JStr "Tell me about Chuck Norris")
             (JStr "C123") (JStr "U999").

Definition general : Channel :=
  {| channel_id := "C123"; channel_name := "general" |}.

Definition two_jokes : Database :=
  {| info := [];
     jokes := [ {| row_id := 1; row_joke := "J1"; row_used := 0 |};
                {| row_id := 2; row_joke := "J2"; row_used := 5 |} ];
     journal := [] |}.

Definition no_jokes : Database :=
  {| info := [ {| row_name := "lastrun"; row_val := "2016-01-01T00:00:00.000Z" |} ];
     jokes := []; journal := [] |}.

(** A bot built by the constructor and logged in: the Slack client has
    filled in the roster. *)
Definition logged_in (settings : Settings) (members : list User)
           (chans : list Channel) : World :=
  let w := Constructor settings "/srv/data/norrisbot.db" in
  {| name := name w; dbPath := dbPath w; users := members;
     channels := chans; user := user w; db := db w;
     outbox := outbox w; console := console w |}.

Definition default_settings : Settings :=
  {| settings_token := "xoxb-token"; settings_dbPath := None;
     settings_name := None |}.

Definition the_bot : User := {| user_id := "U000"; user_name := "norrisbot" |}.
Definition alice : User := {| user_id := "U999"; user_name := "alice" |}.

(** A bot that is ready: identity resolved, store [d] open. *)
Definition ready (d : Database) (chans : list Channel) : World :=
  set_db (Some d)
         (set_user (Some the_bot)
                   (logged_in default_settings [alice; the_bot] chans)).

Definition random : Channel :=
  {| channel_id := "C777"; channel_name := "random" |}.

(** The settings [bin/bot.js] builds when [BOT_NAME] is [n]. *)
Definition named_settings (n : string) : Settings :=
  {| settings_token := "xoxb-token"; settings_dbPath := None;
     settings_name := Some n |}.

(** A bot configured with a display name that has capital letters, and
    an event that spells the name the way it is configured. *)
Definition capital_bot : World :=
  set_db (Some two_jokes)
         (set_user (Some {| user_id := "U000"; user_name := "NorrisBot" |})
                   (logged_in (named_settings "NorrisBot")
                              [alice; {| user_id := "U000";
                                         user_name := "NorrisBot" |}]
                              [general])).

Definition capital_event : Message :=
  mk_message (JStr "message") (JStr "NorrisBot, tell me a joke")
             (JStr "C123") (JStr "U999").

(** A bot whose roster has no member with its name. *)
Definition stranger_bot : World :=
  logged_in default_settings [alice] [general].

(** An event the bot wrote itself, and an event without text whose
    channel is an object. *)
Definition self_event : Message :=
  mk_message (JStr "message") (JStr "chuck norris") (JStr "C123") (JStr "U000").

Definition shapeless_event : Message :=
  mk_message (JStr "message") JUndefined JObject JUndefined.

(** The event of the example with an object where the channel id goes. *)
Definition example_event_object_channel : Message :=
  mk_message (JStr "message") (JStr "Tell me about Chuck Norris")
             JObject (JStr "U999").

(** The event of the example with a number where the text goes. *)
Definition numeric_text_event : Message :=
  mk_message (JStr "message") (JNum 5) (JStr "C123") (JStr "U999").

(** The random keys that put row [target] ahead of its ties. *)
Definition favour (target : nat) : nat -> Z :=
  fun i => if Nat.eqb i target then 0 else 1.

(** ** The bootstrap and the event loop *)

(** [bin/bot.js]: the settings are read from the environment
    ([BOT_API_KEY], [BOT_DB_PATH], [BOT_NAME]) and given to the
    constructor. *)
Definition bot_js (BOT_API_KEY : string) (BOT_DB_PATH BOT_NAME : option string)
           (default_db_path : string) : World :=
  Constructor {| settings_token := BOT_API_KEY;
                 settings_dbPath := BOT_DB_PATH;
                 settings_name := BOT_NAME |} default_db_path.

(** What the Slack client emits, with what the environment answers while
    the handler runs. *)
Inductive Event : Type :=
| Start (disk : option Database) (err : option string) (now : string)
| Incoming (err : option string) (rnd : nat -> Z) (message : Message).

(** The handlers [run] attaches: [_onStart] to start, [_onMessage] to
    message. *)
Definition dispatch (e : Event) : M unit :=
  match e with
  | Start disk err now => _onStart disk err now
  | Incoming err rnd message => _onMessage err rnd message
  end.

(** The bot over the events emitted, in order, on a quiet line: the
    engine answers the query of an event, its callback runs and its
    statement is applied before the next event is emitted.  An uncaught
    exception or an exit ends the process.  The steps below drop the
    assumption. *)
Fixpoint run (events : list Event) : M unit :=
  match events with
  | [] => ret tt
  | e :: rest => dispatch e ;; run rest
  end.

(** ** The message handler step by step *)

(** [db.get] and [db.run] return at once: the query of an event and the
    statement of its callback wait for the engine, and further events can
    be handled meanwhile.  What waits: *)
Inductive Pending : Type :=
| PendingGet (originalMessage : Message)
| PendingRun (s : Stmt).

(** The bot once ready, with the operations that wait for the engine. *)
Definition Process : Type := (World * list Pending)%type.

(** [_onMessage] up to the call of [db.get], which reads the field [db]
    and returns. *)
Definition onMessage_issue (message : Message) : M (option Pending) :=
  go <- onMessage_test message ;;
  if go then (_ <- the_db ;; ret (Some (PendingGet message))) else ret None.

(** The callback of [_replyWithRandomJoke] up to the call of [db.run],
    which reads the field [db] and returns. *)
Definition reply_callback (originalMessage : Message) (err : option string)
           (record : option (Z * string)) : M (option Pending) :=
  match err with
  | Some e => console_error ["DATABASE ERROR:"; e] ;; ret None
  | None =>
      channel <- _getChannelById (msg_channel originalMessage) ;;
      chan <- deref channel ;;
      row <- deref record ;;
      postMessageToChannel (channel_name chan) (snd row) true ;;
      _ <- the_db ;;
      ret (Some (PendingRun (UpdateUsed (fst row))))
  end.

(** The engine completes an operation on the store as it is then: a query
    is answered and its callback runs; a statement is applied. *)
Definition complete (op : Pending) (err : option string) (rnd : nat -> Z)
  : M (option Pending) :=
  match op with
  | PendingGet m =>
      d <- the_db ;;
      reply_callback m err
        (match err with
         | Some _ => None
         | None => option_map row_object (Sql.select_least_used rnd d)
         end)
  | PendingRun s => db_run s ;; ret None
  end.

(** What happens next: the client emits a message, or the engine
    completes the operation at place [k] of those that wait (any of them:
    the driver runs them in parallel), answering [err] and drawing [rnd]
    if it is a query. *)
Inductive Step : Type :=
| Emit (message : Message)
| Complete (k : nat) (err : option string) (rnd : nat -> Z).

Definition issued (p : option Pending) : list Pending :=
  match p with
  | Some op => [op]
  | None => []
  end.

Definition step (s : Step) (p : Process) : outcome unit * Process :=
  let '(w, waiting) := p in
  match s with
  | Emit m =>
      match onMessage_issue m w with
      | (Ret op, w') => (Ret tt, (w', (waiting ++ issued op)%list))
      | (Throw e, w') => (Throw e, (w', waiting))
      | (Exit c, w') => (Exit c, (w', waiting))
      end
  | Complete k err rnd =>
      match nth_error waiting k with
      | None => (Ret tt, (w, waiting))
      | Some op =>
          let others := (firstn k waiting ++ skipn (S k) waiting)%list in
          match complete op err rnd w with
          | (Ret next, w') => (Ret tt, (w', (others ++ issued next)%list))
          | (Throw e, w') => (Throw e, (w', others))
          | (Exit c, w') => (Exit c, (w', others))
          end
      end
  end.

Fixpoint steps (l : list Step) (p : Process) : outcome unit * Process :=
  match l with
  | [] => (Ret tt, p)
  | s :: rest =>
      match step s p with
      | (Ret _, p') => steps rest p'
      | (Throw e, p') => (Throw e, p')
      | (Exit c, p') => (Exit c, p')
      end
  end.

(** One event handled on a quiet line: it is emitted, the engine answers
    its query with the draw [rnd], and the engine applies its statement,
    before anything else happens. *)
Definition quiet_round (round : (nat -> Z) * Message) : list Step :=
  [Emit (snd round); Complete 0 None (fst round); Complete 0 None (fst round)].


(** ** Measures and relations on the store *)

(** The number of rows of [info] named lastrun. *)
Definition lastrun_rows (d : Database) : nat :=
  List.length (filter (fun r => String.eqb (row_name r) "lastrun") (info d)).

(** A row before and after some replies: same id, same text, and a
    counter that has not gone down and has gone up by one at most. *)
Definition served_step (r r' : JokeRow) : Prop :=
  row_id r' = row_id r /\ row_joke r' = row_joke r
  /\ row_used r <= row_used r' <= row_used r + 1.

(** The ids of the rows are integers a double holds exactly. *)
Definition safe_ids (rows : list JokeRow) : Prop :=
  forall r, In r rows -> Z.abs (row_id r) < 2 ^ 53.

(** No joke has been used two times more than another. *)
Definition balanced (rows : list JokeRow) : Prop :=
  forall a b, In a rows -> In b rows -> row_used a <= row_used b + 1.

(** The event is a message the member [me] wrote. *)
Definition authored_by (me : User) (e : Event) : Prop :=
  match e with
  | Start _ _ _ => False
  | Incoming _ _ message => msg_user message = JStr (user_id me)
  end.

(** The post of a joke to a channel. *)
Definition joke_post (c : Channel) (r : JokeRow) : Post :=
  {| post_channel := channel_name c; post_text := row_joke r;
     post_as_user := true |}.

(** The line [_connectDb] writes when the store is missing. *)
Definition missing_store_line (w : World) : list string :=
  ["Database path " ++ quote ++ dbPath w ++ quote
   ++ " does not exist or it's not ReadableStream."].

(** Three jokes with distinct ids, evenly used. *)
Definition three_jokes : Database :=
  {| info := [];
     jokes := [ {| row_id := 1; row_joke := "J1"; row_used := 3 |};
                {| row_id := 2; row_joke := "J2"; row_used := 2 |};
                {| row_id := 3; row_joke := "J3"; row_used := 2 |} ];
     journal := [] |}.

(** Two jokes with distinct ids that have not been served yet. *)
Definition fresh_jokes : Database :=
  {| info := [];
     jokes := [ {| row_id := 1; row_joke := "J1"; row_used := 0 |};
                {| row_id := 2; row_joke := "J2"; row_used := 0 |} ];
     journal := [] |}.

(** One joke whose id, 2^53 + 1, no double holds. *)
Definition big_id_jokes : Database :=
  {| info := [];
     jokes := [ {| row_id := 9007199254740993; row_joke := "J1";
                   row_used := 0 |} ];
     journal := [] |}.

(** The number of times the jokes of a table have been served. *)
Definition total_used (rows : list JokeRow) : Z :=
  fold_right (fun r acc => row_used r + acc) 0 rows.

(** The event is a message that a bot named [self_name], with identity
    [me] and channel list [chans], answers when the engine gives it a
    joke: the engine reports no error, the four predicates of the filter
    hold and the channel of the event is in the list. *)
Definition answerable (self_name : string) (chans : list Channel) (me : User)
           (e : Event) : Prop :=
  match e with
  | Start _ _ _ => False
  | Incoming err _ m =>
      err = None
      /\ isChatMessage_holds m /\ isChannelConversation_holds m
      /\ isNotSelf_holds me m /\ mentions_holds self_name m
      /\ exists c, In c chans /\ msg_channel m = JStr (channel_id c)
  end.

(** ** Facts about strings *)

Section StringFacts.

Lemma startsAt_iff (pat s : string) :
  startsAt pat s = true <-> exists post, s = pat ++ post.
Proof.
  revert s; induction pat as [|a pat IH]; intros s; simpl.
  - split; [intros _; now exists s | reflexivity].
  - destruct s as [|b s].
    + split; [discriminate | intros [post H]; discriminate].
    + rewrite andb_true_iff, IH. split.
      * intros [Hab [post ->]]. apply Ascii.eqb_eq in Hab. subst b.
        now exists post.
      * intros [post H]. injection H as -> ->. split.
        -- apply Ascii.eqb_refl.
        -- now exists post.
Qed.

Lemma contains_cons (c : ascii) (s pat : string) :
  contains (String c s) pat <->
  startsAt pat (String c s) = true \/ contains s pat.
Proof.
  split.
  - intros [pre [post H]]. destruct pre as [|x pre]; simpl in H.
    + left. apply startsAt_iff. now exists post.
    + right. injection H as _ H. now exists pre, post.
  - intros [H | [pre [post H]]].
    + apply startsAt_iff in H as [post H]. now exists "", post.
    + exists (String c pre), post. simpl. now rewrite H.
Qed.

Lemma indexOf_from_range (s pat : string) (k : Z) :
  0 <= k -> indexOf_from k s pat = -1 \/ k <= indexOf_from k s pat.
Proof.
  revert k; induction s as [|c s IH]; intros k Hk; simpl.
  - destruct (startsAt pat ""); [right; lia | now left].
  - destruct (startsAt pat (String c s)); [right; lia|].
    destruct (IH (k + 1)) as [H | H]; [lia | now left | right; lia].
Qed.

Lemma indexOf_from_found (s pat : string) (k : Z) :
  0 <= k -> (indexOf_from k s pat >? -1) = true <-> contains s pat.
Proof.
  revert k; induction s as [|c s IH]; intros k Hk; simpl.
  - destruct (startsAt pat "") eqn:E.
    + split; [intros _ | intros _; apply Z.gtb_lt; lia].
      apply startsAt_iff in E as [post E]. now exists "", post.
    + split; [discriminate|]. intros [pre [post H]].
      destruct pre; [|discriminate]. simpl in H.
      assert (startsAt pat "" = true) by (apply startsAt_iff; now exists post).
      congruence.
  - rewrite contains_cons. destruct (startsAt pat (String c s)) eqn:E.
    + split; [now left | intros _; apply Z.gtb_lt; lia].
    + rewrite (IH (k + 1)) by lia. split; [now right|].
      intros [H | H]; [discriminate | exact H].
Qed.

(** [s.indexOf(pat) > -1] decides whether [pat] occurs in [s]. *)
Lemma indexOf_found (s pat : string) :
  (indexOf s pat >? -1) = true <-> contains s pat.
Proof. apply indexOf_from_found. lia. Qed.

Lemma toLowerCase_append (a b : string) :
  toLowerCase (a ++ b) = toLowerCase a ++ toLowerCase b.
Proof. induction a as [|c a IH]; simpl; [reflexivity | now rewrite IH]. Qed.

Lemma toLowerCase_split (s a b : string) :
  toLowerCase s = a ++ b ->
  exists a' b', s = a' ++ b' /\ toLowerCase a' = a /\ toLowerCase b' = b.
Proof.
  revert s; induction a as [|x a IH]; intros s H; simpl in H.
  - now exists "", s.
  - destruct s as [|c s]; [discriminate|]. simpl in H.
    injection H as Hx H. apply IH in H as [a' [b' [-> [Ha Hb]]]].
    exists (String c a'), b'. simpl. now rewrite Hx, Ha.
Qed.

(** The lowered text contains [pat] exactly when the text contains
    [pat] written in some letter case. *)
Lemma contains_toLowerCase (s pat : string) :
  contains (toLowerCase s) pat <->
  exists written, contains s written /\ toLowerCase written = pat.
Proof.
  split.
  - intros [pre [post H]].
    apply toLowerCase_split in H as [pre' [rest [-> [_ H]]]].
    apply toLowerCase_split in H as [mid [post' [-> [Hmid _]]]].
    exists mid. split; [now exists pre', post' | exact Hmid].
  - intros [written [[pre [post ->]] <-]].
    exists (toLowerCase pre), (toLowerCase post).
    now rewrite !toLowerCase_append.
Qed.

End StringFacts.

(** ** The message filter *)

Section Filter.

Variable w : World.
Variable m : Message.

Lemma strict_eq_str_iff (v : jsval) (s : string) :
  strict_eq_str v s = true <-> v = JStr s.
Proof.
  destruct v; simpl; try (split; [discriminate | intros H; discriminate H]).
  rewrite String.eqb_eq. split; [now intros -> | now intros [= ->]].
Qed.

Lemma isChatMessage_holds_true :
  isChatMessage_holds m -> _isChatMessage m = true.
Proof.
  intros [Ht [s [Hs Hne]]]. unfold _isChatMessage. rewrite Ht, Hs. simpl.
  apply negb_true_iff, String.eqb_neq, Hne.
Qed.

Lemma isChatMessage_true_holds :
  text_typed m -> _isChatMessage m = true -> isChatMessage_holds m.
Proof.
  unfold _isChatMessage. intros Hty H.
  apply andb_true_iff in H as [Ht Htxt]. apply strict_eq_str_iff in Ht.
  split; [exact Ht|].
  destruct Hty as [Hu | [s Hs]]; rewrite ?Hu, ?Hs in Htxt; simpl in Htxt.
  - discriminate.
  - exists s. split; [exact Hs|].
    now apply String.eqb_neq, negb_true_iff.
Qed.

Lemma isChannelConversation_iff :
  _isChannelConversation m = true <-> isChannelConversation_holds m.
Proof.
  unfold _isChannelConversation, isChannelConversation_holds.
  destruct (msg_channel m) as [| | | |s|]; simpl;
    try (split; [discriminate | intros [rest H]; discriminate H]).
  destruct s as [|c s]; simpl.
  - split; [discriminate | intros [rest H]; discriminate H].
  - split.
    + intros H. apply Ascii.eqb_eq in H. subst c. now exists s.
    + intros [rest [= -> _]]. reflexivity.
Qed.

(** On a text that is a string the trigger test is the disjunction of
    two searches in the lowered text. *)
Lemma isMentioning_string (s : string) :
  msg_text m = JStr s ->
  _isMentioningChuckNorris m w =
  (Ret ((indexOf (toLowerCase s) "chuck norris" >? -1)
        || (indexOf (toLowerCase s) (name w) >? -1)), w).
Proof.
  intros Hs.
  unfold _isMentioningChuckNorris, orM, bind, text_toLowerCase, gets, ret.
  rewrite Hs.
  now destruct (indexOf (toLowerCase s) "chuck norris" >? -1).
Qed.

(** On anything else the call of [toLowerCase] throws. *)
Lemma isMentioning_not_string :
  is_string (msg_text m) = false ->
  _isMentioningChuckNorris m w = (Throw TypeError, w).
Proof.
  intros H.
  unfold _isMentioningChuckNorris, orM, bind, text_toLowerCase, throw.
  destruct (msg_text m); simpl in H; try reflexivity; discriminate.
Qed.

Lemma isMentioning_true_iff (s : string) :
  msg_text m = JStr s ->
  _isMentioningChuckNorris m w = (Ret true, w) <-> mentions_holds (name w) m.
Proof.
  intros Hs. rewrite (isMentioning_string s Hs). unfold mentions_holds.
  split.
  - intros [= H]. exists s. split; [exact Hs|].
    apply orb_true_iff in H. now rewrite !indexOf_found in H.
  - intros [s' [Hs' H]]. rewrite Hs in Hs'. injection Hs' as <-.
    rewrite <- !indexOf_found in H. apply orb_true_iff in H. now rewrite H.
Qed.

(** The first two tests fail: the condition is false, whatever the
    identity of the bot and the text are. *)
Lemma onMessage_test_guard :
  _isChatMessage m && _isChannelConversation m = false ->
  onMessage_test m w = (Ret false, w).
Proof.
  intros H. unfold onMessage_test, andM, bind, ret.
  destruct (_isChatMessage m); simpl in H; [|reflexivity].
  now rewrite H.
Qed.

(** With the identity resolved, the condition is the conjunction the
    source writes, the trigger test coming last. *)
Lemma onMessage_test_resolved (me : User) :
  user w = Some me ->
  onMessage_test m w =
  if _isChatMessage m && _isChannelConversation m
     && negb (strict_eq_str (msg_user m) (user_id me))
  then _isMentioningChuckNorris m w
  else (Ret false, w).
Proof.
  intros Hu.
  unfold onMessage_test, andM, notM, _isFromNorrisBot, bind, gets, deref, ret.
  destruct (_isChatMessage m); [|reflexivity].
  destruct (_isChannelConversation m); [|reflexivity].
  cbn. rewrite Hu.
  now destruct (strict_eq_str (msg_user m) (user_id me)).
Qed.

(** With the identity unresolved, an event that passes the first two
    tests makes the third throw. *)
Lemma onMessage_test_unresolved :
  user w = None ->
  _isChatMessage m && _isChannelConversation m = true ->
  onMessage_test m w = (Throw TypeError, w).
Proof.
  intros Hu H. apply andb_true_iff in H as [H1 H2].
  unfold onMessage_test, andM, notM, _isFromNorrisBot, bind, gets, deref,
    ret, throw.
  rewrite H1, H2. cbn. now rewrite Hu.
Qed.

Lemma onMessage_true_iff (me : User) :
  user w = Some me ->
  onMessage_test m w = (Ret true, w) <-> all_four_hold w me m.
Proof.
  intros Hu. rewrite (onMessage_test_resolved me Hu). unfold all_four_hold.
  split.
  - intros H.
    destruct (_isChatMessage m) eqn:E1; [|discriminate].
    destruct (_isChannelConversation m) eqn:E2; [|discriminate].
    destruct (strict_eq_str (msg_user m) (user_id me)) eqn:E3;
      [discriminate|]. simpl in H.
    destruct (is_string (msg_text m)) eqn:E4.
    + destruct (msg_text m) as [| | | |s|] eqn:Hs; try discriminate.
      assert (Hty : text_typed m) by (right; now exists s).
      repeat split.
      * now apply isChatMessage_true_holds.
      * now apply isChatMessage_true_holds.
      * now apply isChannelConversation_iff.
      * intros Heq. apply strict_eq_str_iff in Heq. congruence.
      * now apply (isMentioning_true_iff s).
    + rewrite (isMentioning_not_string E4) in H. discriminate.
  - intros [H1 [H2 [H3 H4]]].
    rewrite (isChatMessage_holds_true H1).
    rewrite (proj2 isChannelConversation_iff H2).
    destruct (strict_eq_str (msg_user m) (user_id me)) eqn:E3.
    + apply strict_eq_str_iff in E3. contradiction.
    + simpl. destruct H4 as [s [Hs H4]].
      apply (isMentioning_true_iff s Hs). now exists s.
Qed.

(** With the identity resolved and the text typed, the condition
    evaluates to a boolean. *)
Lemma onMessage_test_total (me : User) :
  user w = Some me -> text_typed m ->
  exists b, onMessage_test m w = (Ret b, w).
Proof.
  intros Hu Hty. rewrite (onMessage_test_resolved me Hu).
  destruct (_isChatMessage m) eqn:E1; [|now exists false]. simpl.
  destruct (_isChannelConversation m && _); [|now exists false].
  destruct (isChatMessage_true_holds Hty E1) as [_ [s [Hs _]]].
  rewrite (isMentioning_string s Hs). eauto.
Qed.

End Filter.

(** ** Claims about the message filter *)

(** For a bot whose name is its own lower case the condition of
    [_onMessage] is true exactly when the four predicates hold as the
    specification words them. *)
Lemma onMessage_true_iff_lower_name (w : World) (me : User) (m : Message) :
  user w = Some me -> toLowerCase (name w) = name w ->
  onMessage_test m w = (Ret true, w) <-> four_predicates_spec w me m.
Proof.
  intros Hu Hlow. rewrite (onMessage_true_iff w m me Hu).
  unfold all_four_hold, four_predicates_spec, mentions_holds,
    mentionsTrigger_spec.
  rewrite Hlow. split.
  - intros [H1 [H2 [H3 [s [Hs H4]]]]].
    split; [exact H1|]. split; [exact H2|]. split; [exact H3|].
    exists s. split; [exact Hs|]. now rewrite <- !contains_toLowerCase.
  - intros [H1 [H2 [H3 [s [Hs H4]]]]].
    split; [exact H1|]. split; [exact H2|]. split; [exact H3|].
    exists s. split; [exact Hs|]. now rewrite !contains_toLowerCase.
Qed.

(** C1, at the bot named NorrisBot, identity resolved, and an event of a
    public channel, written by another member, whose text spells the name
    of the bot as it is configured: the four predicates hold as the
    specification words them, the condition of [_onMessage] is false and
    [_onMessage] returns with the world as it was, so there is no reply.
    The text is lowered and the name is not, as in C7. *)
Theorem C1_capital_name_passes_and_is_ignored (err : option string)
        (rnd : nat -> Z) :
  user capital_bot = Some {| user_id := "U000"; user_name := "NorrisBot" |}
  /\ four_predicates_spec capital_bot
                          {| user_id := "U000"; user_name := "NorrisBot" |}
                          capital_event
  /\ onMessage_test capital_event capital_bot = (Ret false, capital_bot)
  /\ _onMessage err rnd capital_event capital_bot = (Ret tt, capital_bot).
Proof.
  split; [reflexivity|]. split; [|split; reflexivity].
  repeat split.
  - exists "NorrisBot, tell me a joke". split; [reflexivity | discriminate].
  - now exists "123".
  - unfold isNotSelf_holds. discriminate.
  - exists "NorrisBot, tell me a joke". split; [reflexivity|].
    right. exists "NorrisBot". split; [|reflexivity].
    now exists "", ", tell me a joke".
Qed.

(** C6. An event whose sender is the bot itself makes the condition of
    [_onMessage] false, whatever its text, and [_onMessage] leaves the
    world as it was: nothing is posted and the store is not read. *)
Theorem C6_self_authored_never_replied (w : World) (me : User) (m : Message) :
  user w = Some me -> msg_user m = JStr (user_id me) ->
  onMessage_test m w = (Ret false, w)
  /\ forall err rnd, _onMessage err rnd m w = (Ret tt, w).
Proof.
  intros Hu Hself.
  assert (H : onMessage_test m w = (Ret false, w)).
  { rewrite (onMessage_test_resolved w m me Hu).
    rewrite (proj2 (strict_eq_str_iff (msg_user m) (user_id me)) Hself).
    simpl. now rewrite andb_false_r. }
  split; [exact H|].
  intros err rnd. unfold _onMessage, bind. now rewrite H.
Qed.

Lemma C6_self_authored_never_replied_witness :
  user (ready two_jokes [general]) = Some the_bot
  /\ msg_user self_event = JStr (user_id the_bot)
  /\ forall err rnd,
      _onMessage err rnd
        self_event
        (ready two_jokes [general])
      = (Ret tt, ready two_jokes [general]).
Proof.
  split; [reflexivity|]. split; [reflexivity|].
  exact (proj2 (C6_self_authored_never_replied (ready two_jokes [general])
                  the_bot self_event eq_refl eq_refl)).
Defined.

(** The condition of [_onMessage] is false, and nothing throws, for
    every event whose text is absent or empty and for every event whose
    channel is absent or not a string, whatever the rest of the event and
    the state of the bot: the test of the text comes before the call of
    [toLowerCase], which would throw on an absent text, and the test of
    the type of the channel comes before its first unit is read. *)
Lemma onMessage_test_absent_fields (w : World) (m : Message) :
  (truthy (msg_text m) = false -> onMessage_test m w = (Ret false, w))
  /\ (is_string (msg_channel m) = false -> onMessage_test m w = (Ret false, w))
  /\ (msg_text m = JUndefined ->
      _isMentioningChuckNorris m w = (Throw TypeError, w)).
Proof.
  split; [|split].
  - intros H. apply onMessage_test_guard. unfold _isChatMessage.
    rewrite H. now rewrite andb_false_r.
  - intros H. apply onMessage_test_guard. unfold _isChannelConversation.
    rewrite H. now rewrite andb_false_r.
  - intros H. apply isMentioning_not_string. now rewrite H.
Qed.

(** C10, at a bot whose roster has no member with its name, after its
    start-up has completed, and the event of the example, which has every
    field: the identity is [undefined], the first two tests pass and the
    third throws a TypeError, so the evaluation of the condition does not
    complete.  It does not complete either for a bot with its identity
    resolved when the text of the event is the number 5: the test of the
    text passes and the call of [toLowerCase] throws. *)
Theorem C10_filter_throws (now : string) :
  (exists w',
      _onStart (Some two_jokes) None now stranger_bot = (Ret tt, w')
      /\ user w' = None
      /\ _isChatMessage example_event = true
      /\ _isChannelConversation example_event = true
      /\ onMessage_test example_event w' = (Throw TypeError, w'))
  /\ onMessage_test numeric_text_event (ready two_jokes [general])
     = (Throw TypeError, ready two_jokes [general]).
Proof.
  split; [|reflexivity].
  eexists. split; [reflexivity|]. repeat split.
Qed.

(** ** The trigger and the letter case of the display name *)

Lemma lower_unit_idem (c : ascii) : lower_unit (lower_unit c) = lower_unit c.
Proof. destruct c as [[] [] [] [] [] [] [] []]; vm_compute; reflexivity. Qed.

Lemma toLowerCase_idem (s : string) : toLowerCase (toLowerCase s) = toLowerCase s.
Proof.
  induction s as [|c s IH]; simpl; [reflexivity|].
  now rewrite lower_unit_idem, IH.
Qed.

(** The phrase is found in the text in any letter case. *)
Lemma phrase_found_any_case (s : string) :
  (indexOf (toLowerCase s) "chuck norris" >? -1) = true <->
  exists written, contains s written /\ toLowerCase written = "chuck norris".
Proof. now rewrite indexOf_found, contains_toLowerCase. Qed.

(** A display name that is its own lower case is found in any letter
    case: on such names the code computes what the specification words. *)
Lemma isMentioning_lower_name (w : World) (m : Message) (s : string) :
  toLowerCase (name w) = name w -> msg_text m = JStr s ->
  _isMentioningChuckNorris m w = (Ret true, w) <->
  mentionsTrigger_spec (name w) s.
Proof.
  intros Hlow Hs. rewrite (isMentioning_string w m s Hs).
  unfold mentionsTrigger_spec. rewrite Hlow, <- !contains_toLowerCase.
  rewrite <- !indexOf_found. split.
  - intros [= H]. now apply orb_true_iff.
  - intros H. apply orb_true_iff in H. now rewrite H.
Qed.

(** A display name that has a capital letter is found in no text. *)
Lemma capital_name_never_found (s self_name : string) :
  toLowerCase self_name <> self_name ->
  (indexOf (toLowerCase s) self_name >? -1) = false.
Proof.
  intros Hcap. destruct (indexOf (toLowerCase s) self_name >? -1) eqn:E;
    [|reflexivity].
  exfalso. apply Hcap.
  apply indexOf_found, contains_toLowerCase in E as [written [_ <-]].
  apply toLowerCase_idem.
Qed.

(** C7, at the bot named NorrisBot and the text that spells this name as
    configured: the text contains the display name, so the trigger as the
    specification words it holds, and [_isMentioningChuckNorris] answers
    false, because the text is lowered and the name is not. *)
Theorem C7_capital_name_not_matched :
  name capital_bot = "NorrisBot"
  /\ msg_text capital_event = JStr "NorrisBot, tell me a joke"
  /\ mentionsTrigger_spec (name capital_bot) "NorrisBot, tell me a joke"
  /\ _isMentioningChuckNorris capital_event capital_bot
     = (Ret false, capital_bot)
  /\ onMessage_test capital_event capital_bot = (Ret false, capital_bot).
Proof.
  split; [reflexivity|]. split; [reflexivity|]. split.
  - right. exists "NorrisBot". split; [|reflexivity].
    now exists "", ", tell me a joke".
  - split; reflexivity.
Qed.

(** ** The selection of the least used joke *)

Section LeastUsed.

Import Sql.

Lemma key_le_total (a b : keyed) : key_le a b = false -> key_le b a = true.
Proof.
  destruct a as [[ua ra] xa], b as [[ub rb] xb]. unfold key_le.
  rewrite orb_false_iff, andb_false_iff, orb_true_iff, andb_true_iff.
  rewrite !Z.ltb_ge, !Z.ltb_lt, !Z.eqb_eq, !Z.eqb_neq, Z.leb_gt, Z.leb_le.
  lia.
Qed.

Lemma key_le_trans (a b c : keyed) :
  key_le a b = true -> key_le b c = true -> key_le a c = true.
Proof.
  destruct a as [[ua ra] xa], b as [[ub rb] xb], c as [[uc rc] xc].
  unfold key_le.
  rewrite !orb_true_iff, !andb_true_iff, !Z.ltb_lt, !Z.eqb_eq, !Z.leb_le.
  lia.
Qed.

Lemma key_le_refl (a : keyed) : key_le a a = true.
Proof.
  destruct (key_le a a) eqn:E; [reflexivity|].
  rewrite <- E. now apply key_le_total.
Qed.

Lemma insert_by_not_nil (x : keyed) (l : list keyed) : insert_by x l <> [].
Proof. destruct l as [|y l]; simpl; [|destruct (key_le x y)]; discriminate. Qed.

Lemma order_by_nil (l : list keyed) : order_by l = [] -> l = [].
Proof.
  destruct l as [|x l]; [reflexivity|]. simpl. intros H.
  now apply insert_by_not_nil in H.
Qed.

(** The head of the ordered rows is a row of the table that no row
    precedes. *)
Lemma order_by_hd_min (l : list keyed) (x : keyed) :
  hd_error (order_by l) = Some x ->
  In x l /\ forall y, In y l -> key_le x y = true.
Proof.
  revert x; induction l as [|a l IH]; intros x; simpl; [discriminate|].
  destruct (order_by l) as [|y t] eqn:E; simpl.
  - apply order_by_nil in E. subst l. intros [= <-]. split; [now left|].
    intros y [<- | []]. apply key_le_refl.
  - destruct (IH y eq_refl) as [Hin Hmin].
    destruct (key_le a y) eqn:Hay; simpl; intros [= <-].
    + split; [now left|]. intros z [<- | Hz]; [apply key_le_refl|].
      apply (key_le_trans a y z Hay). now apply Hmin.
    + split; [now right|]. intros z [<- | Hz]; [|now apply Hmin].
      now apply key_le_total.
Qed.

Lemma order_by_hd_some (l : list keyed) :
  l <> [] -> exists x, hd_error (order_by l) = Some x.
Proof.
  intros Hne. destruct (order_by l) as [|x t] eqn:E.
  - now apply order_by_nil in E.
  - now exists x.
Qed.

(** The keyed rows are the rows of the table, row [j] with the key
    drawn for it. *)
Lemma In_with_keys (rnd : nat -> Z) (rows : list JokeRow) (i : nat)
      (x : keyed) :
  In x (with_keys rnd i rows) <->
  exists j r, nth_error rows j = Some r
              /\ x = (row_used r, rnd (i + j)%nat, r).
Proof.
  revert i; induction rows as [|a rows IH]; intros i; simpl.
  - split; [intros [] | intros [[|j] [r [H _]]]; discriminate].
  - rewrite IH. split.
    + intros [<- | [j [r [Hj ->]]]].
      * exists 0%nat, a. now rewrite Nat.add_0_r.
      * exists (S j), r. now rewrite Nat.add_succ_r.
    + intros [[|j] [r [Hj ->]]]; simpl in Hj.
      * injection Hj as ->. left. now rewrite Nat.add_0_r.
      * right. exists j, r. now rewrite Nat.add_succ_r.
Qed.

Lemma with_keys_nil (rnd : nat -> Z) (rows : list JokeRow) (i : nat) :
  with_keys rnd i rows = [] -> rows = [].
Proof. destruct rows; [reflexivity | discriminate]. Qed.

(** Whatever the random keys are, a table with a row yields a row of
    the table whose [used] is the least. *)
Lemma least_used_row_min (rnd : nat -> Z) (d : Database) :
  jokes d <> [] ->
  exists r, least_used_row rnd d = Some r
            /\ In r (jokes d)
            /\ forall r', In r' (jokes d) -> row_used r <= row_used r'.
Proof.
  intros Hne. unfold least_used_row.
  destruct (order_by_hd_some (with_keys rnd 0 (jokes d))) as [x Hx].
  { intros H. now apply with_keys_nil in H. }
  rewrite Hx. destruct (order_by_hd_min _ _ Hx) as [Hin Hmin].
  apply In_with_keys in Hin as [j [r [Hj ->]]]. exists r. simpl.
  split; [reflexivity|]. split; [now apply nth_error_In in Hj|].
  intros r' Hr'. apply In_nth_error in Hr' as [j' Hj'].
  assert (Hle : key_le (row_used r, rnd (0 + j)%nat, r)
                       (row_used r', rnd (0 + j')%nat, r') = true).
  { apply Hmin, In_with_keys. now exists j', r'. }
  unfold key_le in Hle.
  rewrite orb_true_iff, andb_true_iff, Z.ltb_lt, Z.eqb_eq in Hle. lia.
Qed.

(** Every row tied for the least [used] is the one selected for some
    draw of the random keys: the draw that favours it. *)
Lemma least_used_row_favour (d : Database) (j : nat) (r : JokeRow) :
  nth_error (jokes d) j = Some r ->
  (forall r', In r' (jokes d) -> row_used r <= row_used r') ->
  least_used_row (favour j) d = Some r.
Proof.
  intros Hj Hmin. unfold least_used_row.
  destruct (order_by_hd_some (with_keys (favour j) 0 (jokes d))) as [x Hx].
  { intros H. apply with_keys_nil in H. rewrite H in Hj.
    destruct j; discriminate. }
  rewrite Hx. destruct (order_by_hd_min _ _ Hx) as [Hin Hfirst].
  apply In_with_keys in Hin as [k [rk [Hk ->]]]. simpl.
  assert (Hle : key_le (row_used rk, favour j (0 + k)%nat, rk)
                       (row_used r, favour j (0 + j)%nat, r) = true).
  { apply Hfirst, In_with_keys. now exists j, r. }
  unfold key_le, favour in Hle. simpl in Hle.
  rewrite Nat.eqb_refl in Hle.
  rewrite orb_true_iff, andb_true_iff, Z.ltb_lt, Z.eqb_eq, Z.leb_le in Hle.
  assert (Hrk : row_used r <= row_used rk)
    by (apply Hmin; now apply nth_error_In in Hk).
  destruct (Nat.eqb k j) eqn:Ekj.
  - apply Nat.eqb_eq in Ekj. subst k. congruence.
  - lia.
Qed.

End LeastUsed.

(** C2. For every table of jokes that is not empty and every draw of the
    random keys, the query of [_replyWithRandomJoke] returns the id and
    the text of a joke of the table whose [used] is the least of the
    table; and every joke tied for the least [used] is returned for some
    draw, so the ties are broken by the random keys. *)
Theorem C2_pick_least_used (d : Database) :
  jokes d <> [] ->
  (forall rnd, exists r,
      Sql.least_used_row rnd d = Some r
      /\ Sql.select_least_used rnd d = Some (row_id r, row_joke r)
      /\ In r (jokes d)
      /\ forall r', In r' (jokes d) -> row_used r <= row_used r')
  /\ (forall r, In r (jokes d) ->
                (forall r', In r' (jokes d) -> row_used r <= row_used r') ->
                exists rnd, Sql.least_used_row rnd d = Some r).
Proof.
  intros Hne. split.
  - intros rnd. destruct (least_used_row_min rnd d Hne) as [r [Hr [Hin Hmin]]].
    exists r. unfold Sql.select_least_used. rewrite Hr. simpl. auto.
  - intros r Hin Hmin. apply In_nth_error in Hin as [j Hj].
    exists (favour j). now apply least_used_row_favour.
Qed.

Lemma C2_pick_least_used_witness :
  jokes two_jokes <> []
  /\ exists r, Sql.least_used_row (fun _ => 7) two_jokes = Some r
               /\ row_used r <= 0.
Proof.
  assert (Hne : jokes two_jokes <> []) by discriminate.
  split; [exact Hne|].
  destruct (proj1 (C2_pick_least_used two_jokes Hne) (fun _ => 7))
    as [r [Hr [_ [_ Hmin]]]].
  exists r. split; [exact Hr|].
  apply (Hmin {| row_id := 1; row_joke := "J1"; row_used := 0 |}).
  now left.
Defined.

(** ** The reply *)

Section Reply.

Variable w : World.
Variable d : Database.
Variable m : Message.
Variable rnd : nat -> Z.
Hypothesis Hdb : db w = Some d.

Lemma the_db_open : the_db w = (Ret d, w).
Proof. unfold the_db, bind, gets, deref, ret. now rewrite Hdb. Qed.

(** The engine reports an error: it is written to the console and
    nothing else happens. *)
Lemma reply_engine_error (e : string) :
  _replyWithRandomJoke (Some e) rnd m w
  = (Ret tt, add_console ["DATABASE ERROR:"; e] w).
Proof.
  unfold _replyWithRandomJoke, bind. now rewrite the_db_open.
Qed.

(** The channel and a joke are there: the joke is posted to the channel
    as the bot and its counter is updated. *)
Lemma reply_posts_and_marks (c : Channel) (r : JokeRow) :
  _getChannelById (msg_channel m) w = (Ret (Some c), w) ->
  Sql.least_used_row rnd d = Some r ->
  _replyWithRandomJoke None rnd m w
  = (Ret tt,
     set_db (Some (Sql.run (UpdateUsed (to_double (row_id r))) d))
            (add_post {| post_channel := channel_name c;
                         post_text := row_joke r;
                         post_as_user := true |} w)).
Proof.
  intros Hc Hr.
  unfold _replyWithRandomJoke, Sql.select_least_used, bind.
  rewrite the_db_open, Hc, Hr.
  unfold db_run, the_db, postMessageToChannel, modify, bind, gets, deref, ret.
  cbn. now rewrite Hdb.
Qed.

(** The channel is not in the list: reading its name throws. *)
Lemma reply_without_channel :
  _getChannelById (msg_channel m) w = (Ret None, w) ->
  _replyWithRandomJoke None rnd m w = (Throw TypeError, w).
Proof.
  intros Hc. unfold _replyWithRandomJoke, bind.
  now rewrite the_db_open, Hc.
Qed.

(** The table of jokes is empty: reading the joke of the row throws. *)
Lemma reply_without_joke (c : Channel) :
  _getChannelById (msg_channel m) w = (Ret (Some c), w) -> jokes d = [] ->
  _replyWithRandomJoke None rnd m w = (Throw TypeError, w).
Proof.
  intros Hc Hj.
  unfold _replyWithRandomJoke, Sql.select_least_used, Sql.least_used_row,
    bind.
  now rewrite the_db_open, Hc, Hj.
Qed.

End Reply.

Lemma bump_fields (id : Z) (r : JokeRow) :
  row_id (Sql.bump id r) = row_id r
  /\ row_joke (Sql.bump id r) = row_joke r
  /\ (row_id r = id -> row_used (Sql.bump id r) = row_used r + 1)
  /\ (row_id r <> id -> Sql.bump id r = r).
Proof.
  unfold Sql.bump. destruct (row_id r =? id) eqn:E; simpl.
  - apply Z.eqb_eq in E. repeat split; try reflexivity. congruence.
  - apply Z.eqb_neq in E. repeat split; try reflexivity. congruence.
Qed.

(** C4. With the store open, the statement that marks joke [id] as served
    completes and leaves the table [info] and the number of jokes as they
    were; row by row, the id and the text are unchanged, the [used] of a
    row with this id is one more than before, and a row with another id
    is unchanged. *)
Theorem C4_mark_served_frame (w : World) (d : Database) (id : Z) :
  db w = Some d ->
  db_run (UpdateUsed id) w
  = (Ret tt, set_db (Some (Sql.run (UpdateUsed id) d)) w)
  /\ info (Sql.run (UpdateUsed id) d) = info d
  /\ List.length (jokes (Sql.run (UpdateUsed id) d)) = List.length (jokes d)
  /\ forall i r,
      nth_error (jokes d) i = Some r ->
      exists r',
        nth_error (jokes (Sql.run (UpdateUsed id) d)) i = Some r'
        /\ row_id r' = row_id r
        /\ row_joke r' = row_joke r
        /\ (row_id r = id -> row_used r' = row_used r + 1)
        /\ (row_id r <> id -> r' = r).
Proof.
  intros Hdb. split; [|split; [|split]].
  - unfold db_run, the_db, modify, bind, gets, deref, ret. cbn.
    now rewrite Hdb.
  - reflexivity.
  - simpl. apply length_map.
  - intros i r Hi. exists (Sql.bump id r). simpl.
    rewrite nth_error_map, Hi. split; [reflexivity|]. apply bump_fields.
Qed.

Lemma C4_mark_served_frame_witness :
  db (ready two_jokes [general]) = Some two_jokes
  /\ jokes (Sql.run (UpdateUsed 1) two_jokes)
     = [ {| row_id := 1; row_joke := "J1"; row_used := 1 |};
         {| row_id := 2; row_joke := "J2"; row_used := 5 |} ]
  /\ db_run (UpdateUsed 1) (ready two_jokes [general])
     = (Ret tt,
        set_db (Some (Sql.run (UpdateUsed 1) two_jokes))
               (ready two_jokes [general])).
Proof.
  split; [reflexivity|]. split; [reflexivity|].
  exact (proj1 (C4_mark_served_frame (ready two_jokes [general]) two_jokes 1
                  eq_refl)).
Defined.

(** The end-to-end example: with jokes J1 (used 0) and J2 (used 5), a
    qualifying event of channel C123 has J1 posted to that channel, and
    afterwards joke 1 has been used once. *)
Example end_to_end (rnd : nat -> Z) :
  _onMessage None rnd example_event (ready two_jokes [general])
  = (Ret tt,
     set_db (Some (Sql.run (UpdateUsed 1) two_jokes))
            (add_post {| post_channel := "general"; post_text := "J1";
                         post_as_user := true |}
                      (ready two_jokes [general]))).
Proof. reflexivity. Qed.

(** C3, at an open store whose table of jokes is empty and the event of
    the example, which passes the filter: the row the query returns is
    [undefined], reading its joke throws a TypeError that nothing
    catches, and the console is left as it was.  Nothing is posted. *)
Theorem C3_no_jokes_throws (rnd : nat -> Z) :
  jokes no_jokes = []
  /\ onMessage_test example_event (ready no_jokes [general])
     = (Ret true, ready no_jokes [general])
  /\ _onMessage None rnd example_event (ready no_jokes [general])
     = (Throw TypeError, ready no_jokes [general])
  /\ console (ready no_jokes [general]) = []
  /\ outbox (ready no_jokes [general]) = [].
Proof. repeat split. Qed.

(** C9, at a channel list without the channel of the event, which passes
    the filter: the channel found is [undefined], reading its name throws
    a TypeError that nothing catches, and the console is left as it was.
    Nothing is posted and no counter is updated. *)
Theorem C9_unknown_channel_throws (rnd : nat -> Z) :
  _getChannelById (msg_channel example_event) (ready two_jokes [random])
  = (Ret None, ready two_jokes [random])
  /\ onMessage_test example_event (ready two_jokes [random])
     = (Ret true, ready two_jokes [random])
  /\ _onMessage None rnd example_event (ready two_jokes [random])
     = (Throw TypeError, ready two_jokes [random])
  /\ console (ready two_jokes [random]) = []
  /\ outbox (ready two_jokes [random]) = [].
Proof. repeat split. Qed.

(** ** Start-up *)

Section StartUp.

Variable w : World.

(** [_loadBotUser] never fails: it stores the first member whose name is
    the name of the bot, or [undefined] when there is none. *)
Lemma loadBotUser_find :
  _loadBotUser w
  = (Ret tt,
     set_user (find (fun u => String.eqb (user_name u) (name w)) (users w)) w).
Proof.
  unfold _loadBotUser, bind, gets, modify. cbn. do 2 f_equal.
  induction (users w) as [|u l IH]; simpl; [reflexivity|].
  now destruct (String.eqb (user_name u) (name w)).
Qed.

(** The member stored is a member of the roster whose name is, unit for
    unit, the name of the bot. *)
Lemma loadBotUser_exact (me : User) :
  user (snd (_loadBotUser w)) = Some me ->
  In me (users w) /\ user_name me = name w.
Proof.
  rewrite loadBotUser_find. simpl. intros H.
  apply find_some in H as [Hin H]. now apply String.eqb_eq in H.
Qed.

(** No member has the name of the bot: the identity stays [undefined]. *)
Lemma loadBotUser_no_match :
  (forall u, In u (users w) -> user_name u <> name w) ->
  _loadBotUser w = (Ret tt, set_user None w).
Proof.
  intros Hno. rewrite loadBotUser_find. do 2 f_equal.
  destruct (find _ (users w)) as [u|] eqn:E; [|reflexivity].
  apply find_some in E as [Hin E]. apply String.eqb_eq in E.
  now apply Hno in Hin.
Qed.

End StartUp.

Lemma select_lastrun_insert (d : Database) (now : string) :
  Sql.select_lastrun d = None ->
  Sql.select_lastrun (Sql.run (InsertLastrun now) d) = Some now.
Proof.
  unfold Sql.select_lastrun. simpl.
  induction (info d) as [|r l IH]; simpl; [reflexivity|].
  destruct (String.eqb (row_name r) "lastrun"); [discriminate | exact IH].
Qed.

Lemma touch_name (val : string) (r : InfoRow) :
  row_name (Sql.touch val r) = row_name r.
Proof. unfold Sql.touch. now destruct (String.eqb (row_name r) "lastrun"). Qed.

Lemma select_lastrun_update (d : Database) (now v : string) :
  Sql.select_lastrun d = Some v ->
  Sql.select_lastrun (Sql.run (UpdateLastrun now) d) = Some now.
Proof.
  unfold Sql.select_lastrun. simpl.
  induction (info d) as [|r l IH]; simpl; [discriminate|].
  rewrite touch_name.
  destruct (String.eqb (row_name r) "lastrun") eqn:E; simpl; [|exact IH].
  intros _. unfold Sql.touch. now rewrite E.
Qed.

(** The first run with an empty channel list: reading the name of the
    first channel throws before the row is inserted. *)
Lemma firstRunCheck_no_channel (w : World) (d : Database) (now : string) :
  db w = Some d -> Sql.select_lastrun d = None -> channels w = [] ->
  _firstRunCheck None now w = (Throw TypeError, w).
Proof.
  intros Hdb Hsel Hch. unfold _firstRunCheck, bind.
  rewrite (the_db_open w d Hdb), Hsel.
  unfold _welcomeMessage, bind, gets, deref, throw. now rewrite Hch.
Qed.

(** The engine fails on the query: the error is logged, nothing is posted
    and nothing is written. *)
Lemma firstRunCheck_engine_error (w : World) (d : Database) (e now : string) :
  db w = Some d ->
  _firstRunCheck (Some e) now w
  = (Ret tt, add_console ["DATABASE ERROR:"; e] w).
Proof.
  intros Hdb. unfold _firstRunCheck, bind. now rewrite (the_db_open w d Hdb).
Qed.

(** C5. The bot connects, the store [d] is found at its path and the
    engine answers the query.  If [d] has no row lastrun and the bot has a
    first channel, start-up completes, posts exactly one message, the
    welcome, to the first channel, and runs exactly one statement, the
    insertion of lastrun with the current time.  If [d] has a row lastrun,
    start-up completes, posts nothing and runs exactly one statement, the
    update of the value of lastrun to the current time. *)
Theorem C5_first_run_check (w : World) (d : Database) (now : string) :
  (Sql.select_lastrun d = None ->
   forall c cs, channels w = c :: cs ->
   exists w',
     _onStart (Some d) None now w = (Ret tt, w')
     /\ outbox w'
        = (outbox w ++ [ {| post_channel := channel_name c;
                            post_text := welcome_text (name w);
                            post_as_user := true |} ])%list
     /\ console w' = console w
     /\ db w' = Some (Sql.run (InsertLastrun now) d)
     /\ journal (Sql.run (InsertLastrun now) d)
        = (journal d ++ [InsertLastrun now])%list
     /\ info (Sql.run (InsertLastrun now) d)
        = (info d ++ [ {| row_name := "lastrun"; row_val := now |} ])%list
     /\ Sql.select_lastrun (Sql.run (InsertLastrun now) d) = Some now)
  /\ (forall v, Sql.select_lastrun d = Some v ->
      exists w',
        _onStart (Some d) None now w = (Ret tt, w')
        /\ outbox w' = outbox w
        /\ console w' = console w
        /\ db w' = Some (Sql.run (UpdateLastrun now) d)
        /\ journal (Sql.run (UpdateLastrun now) d)
           = (journal d ++ [UpdateLastrun now])%list
        /\ List.length (info (Sql.run (UpdateLastrun now) d))
           = List.length (info d)
        /\ Sql.select_lastrun (Sql.run (UpdateLastrun now) d) = Some now).
Proof.
  split.
  - intros Hsel c cs Hch. eexists. split.
    + unfold _onStart, bind. rewrite loadBotUser_find. cbn.
      unfold _firstRunCheck, the_db, bind, gets, deref, ret. cbn.
      rewrite Hsel.
      unfold _welcomeMessage, db_run, the_db, postMessageToChannel, modify,
        bind, gets, deref, ret. cbn. rewrite Hch. cbn. reflexivity.
    + cbn. repeat split. now apply select_lastrun_insert.
  - intros v Hsel. eexists. split.
    + unfold _onStart, bind. rewrite loadBotUser_find. cbn.
      unfold _firstRunCheck, the_db, bind, gets, deref, ret. cbn.
      rewrite Hsel.
      unfold db_run, the_db, modify, bind, gets, deref, ret. cbn. reflexivity.
    + cbn. repeat split.
      * apply length_map.
      * now apply (select_lastrun_update d now v).
Qed.

Lemma C5_first_run_check_witness :
  Sql.select_lastrun two_jokes = None
  /\ channels stranger_bot = [general]
  /\ Sql.select_lastrun no_jokes = Some "2016-01-01T00:00:00.000Z"
  /\ (exists w',
         _onStart (Some two_jokes) None "2016-02-02T10:00:00.000Z" stranger_bot
         = (Ret tt, w')
         /\ List.length (outbox w') = 1%nat)
  /\ (exists w',
         _onStart (Some no_jokes) None "2016-02-02T10:00:00.000Z" stranger_bot
         = (Ret tt, w')
         /\ outbox w' = []).
Proof.
  split; [reflexivity|]. split; [reflexivity|]. split; [reflexivity|]. split.
  - destruct (proj1 (C5_first_run_check stranger_bot two_jokes
                       "2016-02-02T10:00:00.000Z")
                    eq_refl general [] eq_refl) as [w' [Hrun [Hout _]]].
    exists w'. split; [exact Hrun|]. now rewrite Hout.
  - destruct (proj2 (C5_first_run_check stranger_bot no_jokes
                       "2016-02-02T10:00:00.000Z")
                    "2016-01-01T00:00:00.000Z" eq_refl) as [w' [Hrun [Hout _]]].
    exists w'. split; [exact Hrun | exact Hout].
Defined.

(** C8, at a roster that has no member named as the bot: no member
    matches, [_loadBotUser] returns with the identity [undefined],
    start-up goes on to its end, and the first event that reaches the
    third test of the filter throws a TypeError. *)
Theorem C8_no_match_goes_on (now : string) (rnd : nat -> Z) :
  filter (fun u => String.eqb (user_name u) (name stranger_bot))
         (users stranger_bot) = []
  /\ _loadBotUser stranger_bot = (Ret tt, set_user None stranger_bot)
  /\ exists w',
      _onStart (Some two_jokes) None now stranger_bot = (Ret tt, w')
      /\ user w' = None
      /\ db w' = Some (Sql.run (InsertLastrun now) two_jokes)
      /\ _onMessage None rnd example_event w' = (Throw TypeError, w').
Proof.
  split; [reflexivity|]. split; [reflexivity|].
  eexists. split; [reflexivity|]. repeat split.
Qed.

(** ** Lookups in the roster *)

(** [l.filter(f)[0]] is the first element of [l] that passes [f]. *)
Lemma first_match_split {A : Type} (f : A -> bool) (l : list A) :
  match hd_error (filter f l) with
  | Some x => exists pre post,
      l = (pre ++ x :: post)%list /\ f x = true
      /\ forall y, In y pre -> f y = false
  | None => forall y, In y l -> f y = false
  end.
Proof.
  induction l as [|a l IH]; simpl; [intros y []|].
  destruct (f a) eqn:E; simpl.
  - exists [], l. repeat split; [exact E | intros y []].
  - destruct (hd_error (filter f l)) as [x|].
    + destruct IH as [pre [post [-> [Hx Hpre]]]].
      exists (a :: pre), post. repeat split; [exact Hx|].
      intros y [<- | Hy]; [exact E | now apply Hpre].
    + intros y [<- | Hy]; [exact E | now apply IH].
Qed.

(** X1. [_loadBotUser] never throws and changes the field [user] only.
    It stores the first member of the roster, in roster order, whose name
    is exactly the name of the bot (later members of the same name are
    passed over without an error), and [undefined] exactly when no member
    has this name. *)
Theorem X1_loadBotUser_first_match (w : World) :
  exists found,
    _loadBotUser w = (Ret tt, set_user found w)
    /\ match found with
       | Some me => exists pre post,
           users w = (pre ++ me :: post)%list
           /\ user_name me = name w
           /\ forall u, In u pre -> user_name u <> name w
       | None => forall u, In u (users w) -> user_name u <> name w
       end.
Proof.
  eexists. split; [reflexivity|].
  pose proof (first_match_split
                (fun u => String.eqb (user_name u) (name w)) (users w)) as H.
  destruct (hd_error _) as [me|].
  - destruct H as [pre [post [Hsplit [Hme Hpre]]]]. exists pre, post.
    split; [exact Hsplit|]. split; [now apply String.eqb_eq|].
    intros u Hu. now apply String.eqb_neq, Hpre.
  - intros u Hu. now apply String.eqb_neq, H.
Qed.

(** X2. [_getChannelById] reads the channel list and changes nothing.
    For a string id it returns the first channel of the list with this
    id; it returns [undefined] exactly when no channel has the id, which
    is the case of every id that is not a string. *)
Theorem X2_getChannelById_lookup (w : World) (channelId : jsval) :
  exists found,
    _getChannelById channelId w = (Ret found, w)
    /\ match found with
       | Some c => exists pre post,
           channels w = (pre ++ c :: post)%list
           /\ channelId = JStr (channel_id c)
           /\ forall c', In c' pre -> channelId <> JStr (channel_id c')
       | None => forall c, In c (channels w) -> channelId <> JStr (channel_id c)
       end.
Proof.
  eexists. split; [reflexivity|].
  pose proof (first_match_split
                (fun item => strict_eq_str channelId (channel_id item))
                (channels w)) as H.
  destruct (hd_error _) as [c|].
  - destruct H as [pre [post [Hsplit [Hc Hpre]]]]. exists pre, post.
    split; [exact Hsplit|]. split; [now apply strict_eq_str_iff|].
    intros c' Hc' Heq. apply Hpre in Hc'.
    apply strict_eq_str_iff in Heq. congruence.
  - intros c Hc Heq. apply H in Hc.
    apply strict_eq_str_iff in Heq. congruence.
Qed.

(** ** Start-up that does not go through *)

(** X3. When no store is found at the path of the bot, start-up ends the
    process with exit status 1 after one line on the console that names
    the path: the store stays closed, nothing is posted and the first-run
    check does not run, whatever the engine and the clock would answer. *)
Theorem X3_onStart_missing_store (w : World) (err : option string)
        (now : string) :
  exists w',
    _onStart None err now w = (Exit 1, w')
    /\ console w' = (console w ++ [missing_store_line w])%list
    /\ outbox w' = outbox w
    /\ db w' = db w.
Proof. eexists. split; [reflexivity|]. repeat split. Qed.

(** X4. On a first run (no row lastrun) of a bot that has no channel,
    start-up throws a TypeError while it reads the name of the first
    channel: nothing is posted and the row lastrun is not written, so the
    store opened is the store found. *)
Theorem X4_onStart_first_run_without_channel (w : World) (d : Database)
        (now : string) :
  Sql.select_lastrun d = None -> channels w = [] ->
  exists w',
    _onStart (Some d) None now w = (Throw TypeError, w')
    /\ outbox w' = outbox w
    /\ console w' = console w
    /\ db w' = Some d.
Proof.
  intros Hsel Hch. eexists. split.
  - unfold _onStart, bind. rewrite loadBotUser_find. cbn.
    unfold _firstRunCheck, the_db, bind, gets, deref, ret. cbn. rewrite Hsel.
    unfold _welcomeMessage, bind, gets, deref, throw. cbn. rewrite Hch.
    reflexivity.
  - repeat split.
Qed.

Lemma X4_onStart_first_run_without_channel_witness :
  Sql.select_lastrun two_jokes = None
  /\ channels (logged_in default_settings [alice; the_bot] []) = []
  /\ exists w',
      _onStart (Some two_jokes) None "2016-02-02T10:00:00.000Z"
               (logged_in default_settings [alice; the_bot] [])
      = (Throw TypeError, w')
      /\ db w' = Some two_jokes.
Proof.
  split; [reflexivity|]. split; [reflexivity|].
  destruct (X4_onStart_first_run_without_channel
              (logged_in default_settings [alice; the_bot] []) two_jokes
              "2016-02-02T10:00:00.000Z" eq_refl eq_refl)
    as [w' [Hrun [_ [_ Hdb]]]].
  exists w'. split; [exact Hrun | exact Hdb].
Defined.

(** X5. When the engine reports an error for the query of the first-run
    check, start-up completes: the error is written to the console on one
    line, nothing is posted and no statement is run, whether the row
    lastrun exists or not. *)
Theorem X5_onStart_engine_error (w : World) (d : Database) (e now : string) :
  exists w',
    _onStart (Some d) (Some e) now w = (Ret tt, w')
    /\ console w' = (console w ++ [["DATABASE ERROR:"; e]])%list
    /\ outbox w' = outbox w
    /\ db w' = Some d.
Proof. eexists. split; [reflexivity|]. repeat split. Qed.

(** ** Every way [_onMessage] can go *)

(** An integer below 2^53 in absolute value is its own double. *)
Lemma to_double_safe (z : Z) : Z.abs z < 2 ^ 53 -> to_double z = z.
Proof.
  intros H. unfold to_double.
  destruct (Z.log2 (Z.abs z) + 1 <=? 53) eqn:E; [reflexivity|].
  apply Z.leb_gt in E. exfalso.
  destruct (Z.eq_dec (Z.abs z) 0) as [H0 | H0].
  - rewrite H0 in E. simpl in E. lia.
  - assert (Hpos : 0 < Z.abs z) by (pose proof (Z.abs_nonneg z); lia).
    apply (Z.log2_lt_pow2 _ 53 Hpos) in H. lia.
Qed.

(** The condition of [_onMessage] reads the world and leaves it as it
    was. *)
Lemma onMessage_test_world (w : World) (m : Message) :
  exists o, onMessage_test m w = (o, w).
Proof.
  destruct (_isChatMessage m && _isChannelConversation m) eqn:E.
  - destruct (user w) as [me|] eqn:Hu.
    + rewrite (onMessage_test_resolved w m me Hu), E. simpl.
      destruct (negb _); [|eauto].
      destruct (is_string (msg_text m)) eqn:Es.
      * destruct (msg_text m) as [| | | |s|] eqn:Ht; simpl in Es;
          try discriminate Es.
        rewrite (isMentioning_string w m s Ht). eauto.
      * rewrite (isMentioning_not_string w m Es). eauto.
    + rewrite (onMessage_test_unresolved w m Hu E). eauto.
  - rewrite (onMessage_test_guard w m E). eauto.
Qed.

Lemma least_used_row_some (rnd : nat -> Z) (d : Database) (r : JokeRow) :
  Sql.least_used_row rnd d = Some r ->
  In r (jokes d) /\ forall r', In r' (jokes d) -> row_used r <= row_used r'.
Proof.
  intros Hr. assert (Hne : jokes d <> []).
  { intros H. unfold Sql.least_used_row in Hr. rewrite H in Hr. discriminate. }
  destruct (least_used_row_min rnd d Hne) as [r0 [Hr0 H]].
  rewrite Hr in Hr0. injection Hr0 as <-. exact H.
Qed.

(** [_onMessage] leaves the world as it was, or logs the error of the
    engine, or posts the joke selected to the channel found and marks the
    joke as served. *)
Lemma onMessage_cases (w : World) (m : Message) (err : option string)
      (rnd : nat -> Z) :
  (exists o, _onMessage err rnd m w = (o, w))
  \/ (exists e, err = Some e
                /\ _onMessage err rnd m w
                   = (Ret tt, add_console ["DATABASE ERROR:"; e] w))
  \/ (exists d c r,
         db w = Some d
         /\ _getChannelById (msg_channel m) w = (Ret (Some c), w)
         /\ Sql.least_used_row rnd d = Some r
         /\ _onMessage err rnd m w
            = (Ret tt,
               set_db (Some (Sql.run (UpdateUsed (to_double (row_id r))) d))
                      (add_post (joke_post c r) w))).
Proof.
  unfold _onMessage, bind.
  destruct (onMessage_test_world w m) as [o Ho]. rewrite Ho.
  destruct o as [[|]|e|code]; try (left; eexists; reflexivity).
  destruct (db w) as [d|] eqn:Hdb.
  - destruct err as [e|].
    + right; left. exists e. split; [reflexivity|].
      now apply reply_engine_error with (d := d).
    + assert (Hlook : exists found,
                 _getChannelById (msg_channel m) w = (Ret found, w))
        by (eexists; reflexivity).
      destruct Hlook as [[c|] Hc].
      * destruct (Sql.least_used_row rnd d) as [r|] eqn:Hr.
        -- right; right. exists d, c, r. repeat split; try assumption.
           now apply reply_posts_and_marks.
        -- left. exists (Throw TypeError).
           unfold _replyWithRandomJoke, Sql.select_least_used, bind.
           now rewrite (the_db_open w d Hdb), Hc, Hr.
      * left. exists (Throw TypeError). now apply reply_without_channel with (d := d).
  - left. exists (Throw TypeError).
    unfold _replyWithRandomJoke, the_db, bind, gets, deref, throw.
    now rewrite Hdb.
Qed.

Lemma getChannelById_found (w : World) (v : jsval) (c : Channel) :
  _getChannelById v w = (Ret (Some c), w) ->
  In c (channels w) /\ v = JStr (channel_id c).
Proof.
  unfold _getChannelById, bind, gets, ret. intros [= H].
  pose proof (first_match_split
                (fun item => strict_eq_str v (channel_id item)) (channels w)) as F.
  rewrite H in F. destruct F as [pre [post [Hs [Hc _]]]].
  split; [rewrite Hs; apply in_elt | now apply strict_eq_str_iff].
Qed.

(** X6. With the store open, when the engine reports an error for the
    query of a joke, handling an event that passes the filter completes:
    the error is written to the console on one line, nothing is posted
    and no counter is updated. *)
Theorem X6_reply_engine_error (w : World) (d : Database) (me : User)
        (m : Message) (e : string) (rnd : nat -> Z) :
  db w = Some d -> user w = Some me -> all_four_hold w me m ->
  _onMessage (Some e) rnd m w
  = (Ret tt, add_console ["DATABASE ERROR:"; e] w).
Proof.
  intros Hdb Hu Hall. unfold _onMessage, bind.
  rewrite (proj2 (onMessage_true_iff w m me Hu) Hall).
  now apply reply_engine_error with (d := d).
Qed.

Lemma example_event_passes (w : World) (me : User) :
  name w = "norrisbot" -> user_id me = "U000" ->
  all_four_hold w me example_event.
Proof.
  intros Hn Hid. repeat split.
  - exists "Tell me about Chuck Norris". split; [reflexivity | discriminate].
  - now exists "123".
  - unfold isNotSelf_holds. rewrite Hid. discriminate.
  - exists "Tell me about Chuck Norris". split; [reflexivity|].
    left. now exists "tell me about ", "".
Qed.

Lemma X6_reply_engine_error_witness :
  db (ready two_jokes [general]) = Some two_jokes
  /\ user (ready two_jokes [general]) = Some the_bot
  /\ all_four_hold (ready two_jokes [general]) the_bot example_event
  /\ _onMessage (Some "SQLITE_BUSY") (fun _ => 0) example_event
                (ready two_jokes [general])
     = (Ret tt,
        add_console ["DATABASE ERROR:"; "SQLITE_BUSY"]
                    (ready two_jokes [general])).
Proof.
  pose proof (example_event_passes (ready two_jokes [general]) the_bot
                eq_refl eq_refl) as Hall.
  split; [reflexivity|]. split; [reflexivity|]. split; [exact Hall|].
  exact (X6_reply_engine_error (ready two_jokes [general]) two_jokes the_bot
           example_event "SQLITE_BUSY" (fun _ => 0) eq_refl eq_refl Hall).
Defined.

(** An event that passes the filter, of a listed channel, is answered
    with a least used joke; the statement is run for the id the callback
    received. *)
Lemma onMessage_answers (w : World) (d : Database) (me : User)
      (m : Message) (rnd : nat -> Z) (c0 : Channel) :
  db w = Some d -> user w = Some me -> all_four_hold w me m ->
  In c0 (channels w) -> msg_channel m = JStr (channel_id c0) ->
  jokes d <> [] ->
  exists c r,
    In c (channels w) /\ channel_id c = channel_id c0
    /\ Sql.least_used_row rnd d = Some r
    /\ In r (jokes d)
    /\ (forall r', In r' (jokes d) -> row_used r <= row_used r')
    /\ _onMessage None rnd m w
       = (Ret tt,
          set_db (Some (Sql.run (UpdateUsed (to_double (row_id r))) d))
                 (add_post (joke_post c r) w)).
Proof.
  intros Hdb Hu Hall Hc0 Hm Hne.
  destruct (least_used_row_min rnd d Hne) as [r [Hr [Hin Hmin]]].
  assert (Hlook : exists found,
             _getChannelById (msg_channel m) w = (Ret found, w))
    by (eexists; reflexivity).
  destruct Hlook as [[c|] Hc].
  - destruct (getChannelById_found w _ c Hc) as [Hcin Hcid].
    exists c, r. split; [exact Hcin|]. split; [congruence|].
    split; [exact Hr|]. split; [exact Hin|]. split; [exact Hmin|].
    unfold _onMessage, bind.
    rewrite (proj2 (onMessage_true_iff w m me Hu) Hall).
    now apply reply_posts_and_marks.
  - exfalso. unfold _getChannelById, bind, gets, ret in Hc.
    injection Hc as Hc.
    pose proof (first_match_split
                  (fun item => strict_eq_str (msg_channel m) (channel_id item))
                  (channels w)) as F.
    rewrite Hc in F. specialize (F c0 Hc0).
    rewrite (proj2 (strict_eq_str_iff _ _) Hm) in F. discriminate.
Qed.

(** X7. With the store open and the identity resolved, an event that
    passes the filter, whose channel is in the channel list, is answered
    when the table of jokes is not empty and its ids are integers a double
    holds exactly (below 2^53 in absolute value): exactly one message is
    posted, as the bot, to the name of a listed channel with the id of the
    event, its text is a joke whose counter is the least of the table, the
    statement that marks this joke as served is run for its id, and
    nothing is written to the console. *)
Theorem X7_reply_posts_least_used (w : World) (d : Database) (me : User)
        (m : Message) (rnd : nat -> Z) (c0 : Channel) :
  db w = Some d -> user w = Some me -> all_four_hold w me m ->
  In c0 (channels w) -> msg_channel m = JStr (channel_id c0) ->
  jokes d <> [] -> safe_ids (jokes d) ->
  exists c r,
    In c (channels w) /\ channel_id c = channel_id c0
    /\ In r (jokes d)
    /\ (forall r', In r' (jokes d) -> row_used r <= row_used r')
    /\ _onMessage None rnd m w
       = (Ret tt,
          set_db (Some (Sql.run (UpdateUsed (row_id r)) d))
                 (add_post (joke_post c r) w)).
Proof.
  intros Hdb Hu Hall Hc0 Hm Hne Hsafe.
  destruct (onMessage_answers w d me m rnd c0 Hdb Hu Hall Hc0 Hm Hne)
    as [c [r [Hc [Hid [_ [Hin [Hmin Hrun]]]]]]].
  exists c, r. rewrite (to_double_safe _ (Hsafe r Hin)) in Hrun.
  repeat split; assumption.
Qed.

Lemma X7_reply_posts_least_used_witness :
  safe_ids (jokes two_jokes)
  /\ exists c r,
    In c [general] /\ channel_id c = "C123"
    /\ In r (jokes two_jokes)
    /\ (forall r', In r' (jokes two_jokes) -> row_used r <= row_used r')
    /\ _onMessage None (fun _ => 0) example_event (ready two_jokes [general])
       = (Ret tt,
          set_db (Some (Sql.run (UpdateUsed (row_id r)) two_jokes))
                 (add_post (joke_post c r) (ready two_jokes [general]))).
Proof.
  assert (Hne : jokes two_jokes <> []) by discriminate.
  assert (Hsafe : safe_ids (jokes two_jokes)).
  { intros r [<- | [<- | []]]; reflexivity. }
  split; [exact Hsafe|].
  exact (X7_reply_posts_least_used (ready two_jokes [general]) two_jokes
           the_bot example_event (fun _ => 0) general eq_refl eq_refl
           (example_event_passes (ready two_jokes [general]) the_bot
              eq_refl eq_refl)
           (or_introl eq_refl) eq_refl Hne Hsafe).
Defined.

(** ** The row lastrun across start-ups *)

Lemma lastrun_rows_insert (d : Database) (v : string) :
  lastrun_rows (Sql.run (InsertLastrun v) d) = S (lastrun_rows d).
Proof.
  unfold lastrun_rows. simpl. rewrite filter_app, length_app. simpl.
  apply Nat.add_1_r.
Qed.

Lemma lastrun_rows_update (d : Database) (v : string) :
  lastrun_rows (Sql.run (UpdateLastrun v) d) = lastrun_rows d.
Proof.
  unfold lastrun_rows. simpl.
  induction (info d) as [|r l IH]; simpl; [reflexivity|].
  rewrite touch_name.
  destruct (String.eqb (row_name r) "lastrun"); simpl; now rewrite IH.
Qed.

Lemma select_lastrun_none_rows (d : Database) :
  Sql.select_lastrun d = None -> lastrun_rows d = 0%nat.
Proof.
  unfold Sql.select_lastrun, lastrun_rows.
  induction (info d) as [|r l IH]; simpl; [reflexivity|].
  destruct (String.eqb (row_name r) "lastrun"); [discriminate | exact IH].
Qed.

(** A first run that goes through, with the world it leaves. *)
Lemma onStart_first_run (w : World) (d : Database) (now : string)
      (c : Channel) (cs : list Channel) :
  Sql.select_lastrun d = None -> channels w = c :: cs ->
  _onStart (Some d) None now w
  = (Ret tt,
     set_db (Some (Sql.run (InsertLastrun now) d))
            (add_post {| post_channel := channel_name c;
                         post_text := welcome_text (name w);
                         post_as_user := true |}
                      (set_user (find (fun u => String.eqb (user_name u) (name w))
                                      (users w)) w))).
Proof.
  intros Hsel Hch. unfold _onStart, bind. rewrite loadBotUser_find. cbn.
  unfold _firstRunCheck, the_db, bind, gets, deref, ret. cbn. rewrite Hsel.
  unfold _welcomeMessage, db_run, the_db, postMessageToChannel, modify,
    bind, gets, deref, ret. cbn. rewrite Hch. reflexivity.
Qed.

(** A later run, with the world it leaves. *)
Lemma onStart_later_run (w : World) (d : Database) (now v : string) :
  Sql.select_lastrun d = Some v ->
  _onStart (Some d) None now w
  = (Ret tt,
     set_db (Some (Sql.run (UpdateLastrun now) d))
            (set_user (find (fun u => String.eqb (user_name u) (name w))
                            (users w)) w)).
Proof.
  intros Hsel. unfold _onStart, bind. rewrite loadBotUser_find. cbn.
  unfold _firstRunCheck, the_db, bind, gets, deref, ret. cbn. rewrite Hsel.
  unfold db_run, the_db, modify, bind, gets, deref, ret. reflexivity.
Qed.

(** X8. A first start-up followed by a second one on the store the first
    left: both complete, the welcome is posted once over the two, the
    statements run are the insertion of lastrun at the first time and its
    update at the second, and the store ends with exactly one row lastrun,
    holding the second time. *)
Theorem X8_start_twice (w : World) (d : Database) (first second : string)
        (c : Channel) (cs : list Channel) :
  Sql.select_lastrun d = None -> channels w = c :: cs ->
  exists w1 d1 w2 d2,
    _onStart (Some d) None first w = (Ret tt, w1)
    /\ db w1 = Some d1
    /\ _onStart (Some d1) None second w1 = (Ret tt, w2)
    /\ db w2 = Some d2
    /\ outbox w2
       = (outbox w ++ [ {| post_channel := channel_name c;
                           post_text := welcome_text (name w);
                           post_as_user := true |} ])%list
    /\ journal d2
       = (journal d ++ [InsertLastrun first; UpdateLastrun second])%list
    /\ Sql.select_lastrun d2 = Some second
    /\ lastrun_rows d2 = 1%nat.
Proof.
  intros Hsel Hch.
  pose proof (select_lastrun_insert d first Hsel) as Hsel1.
  eexists. exists (Sql.run (InsertLastrun first) d). eexists.
  exists (Sql.run (UpdateLastrun second) (Sql.run (InsertLastrun first) d)).
  split; [now apply (onStart_first_run w d first c cs)|].
  split; [reflexivity|].
  split; [now apply (onStart_later_run _ _ second first)|].
  split; [reflexivity|]. split; [reflexivity|].
  split; [simpl; now rewrite <- app_assoc|].
  split; [now apply (select_lastrun_update _ second first)|].
  rewrite lastrun_rows_update, lastrun_rows_insert.
  now rewrite (select_lastrun_none_rows d Hsel).
Qed.

Lemma X8_start_twice_witness :
  Sql.select_lastrun two_jokes = None
  /\ channels stranger_bot = [general]
  /\ exists w1 d1 w2 d2,
      _onStart (Some two_jokes) None "2016-02-02T10:00:00.000Z" stranger_bot
      = (Ret tt, w1)
      /\ db w1 = Some d1
      /\ _onStart (Some d1) None "2016-02-03T10:00:00.000Z" w1 = (Ret tt, w2)
      /\ db w2 = Some d2
      /\ List.length (outbox w2) = 1%nat
      /\ lastrun_rows d2 = 1%nat.
Proof.
  split; [reflexivity|]. split; [reflexivity|].
  destruct (X8_start_twice stranger_bot two_jokes "2016-02-02T10:00:00.000Z"
              "2016-02-03T10:00:00.000Z" general [] eq_refl eq_refl)
    as [w1 [d1 [w2 [d2 [H1 [H2 [H3 [H4 [H5 [_ [_ H8]]]]]]]]]]].
  exists w1, d1, w2, d2. repeat split; try assumption. now rewrite H5.
Defined.

(** X9. Whatever the engine answers and however start-up ends, the store
    it opens comes out with the table of jokes as found, and with as many
    rows lastrun as found, or with one where there was none: start-up
    never adds a second row lastrun. *)
Theorem X9_onStart_lastrun_rows (w : World) (d : Database)
        (err : option string) (now : string) :
  exists d',
    db (snd (_onStart (Some d) err now w)) = Some d'
    /\ jokes d' = jokes d
    /\ (lastrun_rows d' = lastrun_rows d
        \/ (lastrun_rows d = 0 /\ lastrun_rows d' = 1))%nat.
Proof.
  destruct err as [e|].
  - exists d. repeat split. now left.
  - destruct (Sql.select_lastrun d) as [v|] eqn:Hsel.
    + rewrite (onStart_later_run w d now v Hsel).
      exists (Sql.run (UpdateLastrun now) d). repeat split.
      left. apply lastrun_rows_update.
    + destruct (channels w) as [|c cs] eqn:Hch.
      * exists d. split; [|split; [reflexivity | now left]].
        unfold _onStart, bind. rewrite loadBotUser_find. cbn.
        unfold _firstRunCheck, the_db, bind, gets, deref, ret. cbn.
        rewrite Hsel.
        unfold _welcomeMessage, bind, gets, deref, throw. cbn. rewrite Hch.
        reflexivity.
      * rewrite (onStart_first_run w d now c cs Hsel Hch).
        exists (Sql.run (InsertLastrun now) d). repeat split.
        right. rewrite lastrun_rows_insert.
        now rewrite (select_lastrun_none_rows d Hsel).
Qed.

(** ** What handling an event can and cannot do *)

(** X10. Whatever the event, the state of the bot and the answers of the
    engine, [_onMessage] leaves the messages posted as they were or adds
    exactly one: a post as the bot, to the name of a listed channel whose
    id is the channel of the event, of the text of a joke of the table
    whose counter is the least. *)
Theorem X10_onMessage_posts (w : World) (m : Message) (err : option string)
        (rnd : nat -> Z) :
  outbox (snd (_onMessage err rnd m w)) = outbox w
  \/ exists d c r,
      db w = Some d
      /\ In c (channels w) /\ msg_channel m = JStr (channel_id c)
      /\ In r (jokes d)
      /\ (forall r', In r' (jokes d) -> row_used r <= row_used r')
      /\ outbox (snd (_onMessage err rnd m w))
         = (outbox w ++ [joke_post c r])%list.
Proof.
  destruct (onMessage_cases w m err rnd)
    as [[o H] | [[e [_ H]] | [d [c [r [Hdb [Hc [Hr H]]]]]]]]; rewrite H.
  - now left.
  - now left.
  - right. exists d, c, r.
    destruct (getChannelById_found w _ c Hc) as [Hcin Hcid].
    destruct (least_used_row_some rnd d r Hr) as [Hin Hmin].
    repeat split; assumption.
Qed.

Lemma served_step_bump (id : Z) (r : JokeRow) : served_step r (Sql.bump id r).
Proof.
  unfold served_step, Sql.bump.
  destruct (row_id r =? id); simpl; repeat split; try reflexivity; lia.
Qed.

Lemma served_step_map_bump (id : Z) (rows : list JokeRow) :
  Forall2 served_step rows (map (Sql.bump id) rows).
Proof.
  induction rows as [|r rows IH]; simpl; constructor;
    [apply served_step_bump | exact IH].
Qed.

Lemma served_step_same (rows : list JokeRow) : Forall2 served_step rows rows.
Proof.
  induction rows as [|r rows IH]; constructor; [|exact IH].
  unfold served_step. repeat split; try reflexivity; lia.
Qed.

(** X11. Whatever the event and the answers of the engine, and however
    handling ends, [_onMessage] leaves the name, the path, the roster, the
    channel list and the identity of the bot as they were; a closed store
    stays closed; an open store keeps its table [info] and, row by row,
    the id and the text of every joke, and no counter goes down or goes
    up by more than one. *)
Theorem X11_onMessage_frame (w : World) (m : Message) (err : option string)
        (rnd : nat -> Z) :
  let w' := snd (_onMessage err rnd m w) in
  name w' = name w /\ dbPath w' = dbPath w /\ users w' = users w
  /\ channels w' = channels w /\ user w' = user w
  /\ match db w with
     | None => db w' = None
     | Some d => exists d',
         db w' = Some d' /\ info d' = info d
         /\ Forall2 served_step (jokes d) (jokes d')
     end.
Proof.
  destruct (onMessage_cases w m err rnd)
    as [[o H] | [[e [_ H]] | [d [c [r [Hdb [Hc [Hr H]]]]]]]]; rewrite H; simpl.
  - repeat split. destruct (db w) as [d|]; [|reflexivity].
    exists d. repeat split. apply served_step_same.
  - repeat split. destruct (db w) as [d|]; [|reflexivity].
    exists d. repeat split. apply served_step_same.
  - repeat split. rewrite Hdb.
    exists (Sql.run (UpdateUsed (to_double (row_id r))) d). repeat split.
    apply served_step_map_bump.
Qed.

Lemma NoDup_ids_same (rows : list JokeRow) (a b : JokeRow) :
  NoDup (map row_id rows) -> In a rows -> In b rows ->
  row_id a = row_id b -> a = b.
Proof.
  induction rows as [|r rows IH]; simpl; [intros _ []|].
  intros Hnd Ha Hb Hid. inversion Hnd as [|? ? Hnot Hrest]; subst.
  destruct Ha as [<- | Ha], Hb as [<- | Hb]; try reflexivity.
  - exfalso. apply Hnot. rewrite Hid. now apply in_map.
  - exfalso. apply Hnot. rewrite <- Hid. now apply in_map.
  - now apply IH.
Qed.

Lemma map_bump_ids (id : Z) (rows : list JokeRow) :
  map row_id (map (Sql.bump id) rows) = map row_id rows.
Proof.
  induction rows as [|r rows IH]; simpl; [reflexivity|].
  rewrite IH. f_equal. apply bump_fields.
Qed.

Lemma safe_ids_bump (id : Z) (rows : list JokeRow) :
  safe_ids rows -> safe_ids (map (Sql.bump id) rows).
Proof.
  intros Hsafe r' Hr'. apply in_map_iff in Hr' as [r [<- Hr]].
  destruct (bump_fields id r) as [Hid _]. rewrite Hid. now apply Hsafe.
Qed.

(** Serving a least used joke of a balanced table with distinct ids
    leaves the table balanced. *)
Lemma balanced_bump (rows : list JokeRow) (r : JokeRow) :
  NoDup (map row_id rows) -> balanced rows -> In r rows ->
  (forall r', In r' rows -> row_used r <= row_used r') ->
  balanced (map (Sql.bump (row_id r)) rows).
Proof.
  intros Hnd Hbal Hr Hmin a' b' Ha' Hb'.
  apply in_map_iff in Ha' as [a [<- Ha]]. apply in_map_iff in Hb' as [b [<- Hb]].
  pose proof (served_step_bump (row_id r) b) as [_ [_ Hb']].
  destruct (Z.eq_dec (row_id a) (row_id r)) as [E | E].
  - assert (a = r) by (apply (NoDup_ids_same rows); assumption). subst a.
    destruct (bump_fields (row_id r) r) as [_ [_ [Hup _]]].
    rewrite (Hup eq_refl). specialize (Hmin b Hb). lia.
  - destruct (bump_fields (row_id r) a) as [_ [_ [_ Hsame]]].
    rewrite (Hsame E). specialize (Hbal a b Ha Hb). lia.
Qed.

(** With distinct ids that a double holds exactly, a balanced table is
    balanced after [_onMessage]. *)
Lemma onMessage_balanced (w : World) (d : Database) (m : Message)
      (err : option string) (rnd : nat -> Z) :
  db w = Some d -> NoDup (map row_id (jokes d)) -> safe_ids (jokes d) ->
  balanced (jokes d) ->
  exists d',
    db (snd (_onMessage err rnd m w)) = Some d'
    /\ NoDup (map row_id (jokes d'))
    /\ safe_ids (jokes d')
    /\ balanced (jokes d').
Proof.
  intros Hdb Hnd Hsafe Hbal.
  destruct (onMessage_cases w m err rnd)
    as [[o H] | [[e [_ H]] | [d0 [c [r [Hdb0 [Hc [Hr H]]]]]]]]; rewrite H; simpl.
  - exists d. repeat split; assumption.
  - exists d. repeat split; assumption.
  - rewrite Hdb in Hdb0. injection Hdb0 as <-.
    destruct (least_used_row_some rnd d r Hr) as [Hin Hmin].
    rewrite (to_double_safe _ (Hsafe r Hin)).
    exists (Sql.run (UpdateUsed (row_id r)) d). simpl.
    split; [reflexivity|]. split; [now rewrite map_bump_ids|].
    split; [now apply safe_ids_bump | now apply balanced_bump].
Qed.

(** X13. An event whose type is not message, or whose channel is not a
    string that starts with C (a direct message, a private group), is
    ignored in every state of the bot, with the identity unresolved or the
    store closed too: [_onMessage] returns and the world is as it was. *)
Theorem X13_onMessage_ignores (w : World) (m : Message) (err : option string)
        (rnd : nat -> Z) :
  msg_type m <> JStr "message" \/ ~ isChannelConversation_holds m ->
  _onMessage err rnd m w = (Ret tt, w).
Proof.
  intros H. unfold _onMessage, bind.
  rewrite onMessage_test_guard; [reflexivity|].
  apply andb_false_iff. destruct H as [H | H].
  - left. unfold _isChatMessage. apply andb_false_iff. left.
    destruct (strict_eq_str (msg_type m) "message") eqn:E; [|reflexivity].
    now apply strict_eq_str_iff in E.
  - right. destruct (_isChannelConversation m) eqn:E; [|reflexivity].
    now apply isChannelConversation_iff in E.
Qed.

Lemma X13_onMessage_ignores_witness :
  ~ isChannelConversation_holds
      (mk_message (JStr "message") (JStr "chuck norris") (JStr "D024BE91L")
                  (JStr "U999"))
  /\ _onMessage None (fun _ => 0)
                (mk_message (JStr "message") (JStr "chuck norris")
                            (JStr "D024BE91L") (JStr "U999"))
                stranger_bot
     = (Ret tt, stranger_bot).
Proof.
  assert (H : ~ isChannelConversation_holds
                (mk_message (JStr "message") (JStr "chuck norris")
                            (JStr "D024BE91L") (JStr "U999")))
    by (intros [rest Hrest]; discriminate Hrest).
  split; [exact H|].
  exact (X13_onMessage_ignores stranger_bot _ None (fun _ => 0) (or_intror H)).
Defined.

(** ** The trigger and the configured name *)

(** X14. A bot started by [bin/bot.js] with [BOT_NAME] unset or empty is
    named norrisbot, and for every text its trigger test answers true
    exactly when the text contains the phrase chuck norris or the name
    norrisbot, each in any letter case. *)
Theorem X14_default_name_any_case (key : string) (path nm : option string)
        (dflt : string) (w : World) (m : Message) (s : string) :
  nm = None \/ nm = Some "" ->
  name w = name (bot_js key path nm dflt) ->
  msg_text m = JStr s ->
  name w = "norrisbot"
  /\ (_isMentioningChuckNorris m w = (Ret true, w)
      <-> mentionsTrigger_spec "norrisbot" s).
Proof.
  intros Hnm Hname Hs.
  assert (Hn : name w = "norrisbot")
    by (rewrite Hname; destruct Hnm as [-> | ->]; reflexivity).
  split; [exact Hn|]. rewrite <- Hn.
  apply isMentioning_lower_name; [now rewrite Hn | exact Hs].
Qed.

Lemma X14_default_name_any_case_witness :
  name (ready two_jokes [general])
  = name (bot_js "xoxb-token" None (Some "") "/srv/data/norrisbot.db")
  /\ (_isMentioningChuckNorris
        (mk_message (JStr "message") (JStr "hey NorrisBOT!") (JStr "C123")
                    (JStr "U999"))
        (ready two_jokes [general])
      = (Ret true, ready two_jokes [general])
      <-> mentionsTrigger_spec "norrisbot" "hey NorrisBOT!").
Proof.
  split; [reflexivity|].
  exact (proj2 (X14_default_name_any_case
                  "xoxb-token" None (Some "") "/srv/data/norrisbot.db"
                  (ready two_jokes [general])
                  (mk_message (JStr "message") (JStr "hey NorrisBOT!")
                              (JStr "C123") (JStr "U999"))
                  "hey NorrisBOT!" (or_intror eq_refl) eq_refl eq_refl)).
Defined.

(** X15. For a bot whose name has a capital letter (a name that is not
    its own lower case), the trigger test answers true exactly when the
    text contains the phrase chuck norris in some letter case: the name of
    the bot is found in no text. *)
Theorem X15_capital_name_phrase_only (w : World) (m : Message) (s : string) :
  toLowerCase (name w) <> name w -> msg_text m = JStr s ->
  _isMentioningChuckNorris m w = (Ret true, w)
  <-> exists written,
      contains s written /\ toLowerCase written = "chuck norris".
Proof.
  intros Hcap Hs. rewrite (isMentioning_string w m s Hs).
  rewrite (capital_name_never_found s (name w) Hcap), orb_false_r.
  rewrite <- phrase_found_any_case. split.
  - now intros [= H].
  - now intros ->.
Qed.

Lemma X15_capital_name_phrase_only_witness :
  toLowerCase (name capital_bot) <> name capital_bot
  /\ msg_text capital_event = JStr "NorrisBot, tell me a joke"
  /\ (_isMentioningChuckNorris capital_event capital_bot
      = (Ret true, capital_bot)
      <-> exists written,
          contains "NorrisBot, tell me a joke" written
          /\ toLowerCase written = "chuck norris").
Proof.
  assert (H : toLowerCase (name capital_bot) <> name capital_bot)
    by discriminate.
  split; [exact H|]. split; [reflexivity|].
  exact (X15_capital_name_phrase_only capital_bot capital_event
           "NorrisBot, tell me a joke" H eq_refl).
Defined.

(** ** The bot over a run of events *)

Lemma run_cons (e : Event) (rest : list Event) (w : World) :
  run (e :: rest) w
  = match dispatch e w with
    | (Ret _, w') => run rest w'
    | (Throw x, w') => (Throw x, w')
    | (Exit code, w') => (Exit code, w')
    end.
Proof. reflexivity. Qed.

Lemma onMessage_self (w : World) (me : User) (m : Message)
      (err : option string) (rnd : nat -> Z) :
  user w = Some me -> msg_user m = JStr (user_id me) ->
  _onMessage err rnd m w = (Ret tt, w).
Proof.
  intros Hu Hself. unfold _onMessage, bind.
  rewrite (onMessage_test_resolved w m me Hu).
  rewrite (proj2 (strict_eq_str_iff (msg_user m) (user_id me)) Hself).
  simpl. now rewrite andb_false_r.
Qed.

(** X16. With the identity resolved, a run of events that are all
    messages written by the bot itself completes and leaves the world as
    it was: the posts of the bot, when they come back as events, start no
    reply, whatever their number and their text. *)
Theorem X16_no_reply_loop (w : World) (me : User) (events : list Event) :
  user w = Some me -> Forall (authored_by me) events ->
  run events w = (Ret tt, w).
Proof.
  intros Hu Hall. induction Hall as [|e rest He _ IH]; [reflexivity|].
  rewrite run_cons. destruct e as [disk err now | err rnd m]; [destruct He|].
  simpl in He. simpl. now rewrite (onMessage_self w me m err rnd Hu He).
Qed.

Lemma X16_no_reply_loop_witness :
  user (ready two_jokes [general]) = Some the_bot
  /\ Forall (authored_by the_bot)
            [Incoming None (fun _ => 0) self_event;
             Incoming None (fun _ => 1) self_event]
  /\ run [Incoming None (fun _ => 0) self_event;
          Incoming None (fun _ => 1) self_event]
         (ready two_jokes [general])
     = (Ret tt, ready two_jokes [general]).
Proof.
  assert (H : Forall (authored_by the_bot)
                     [Incoming None (fun _ => 0) self_event;
                      Incoming None (fun _ => 1) self_event])
    by (repeat constructor).
  split; [reflexivity|]. split; [exact H|].
  exact (X16_no_reply_loop (ready two_jokes [general]) the_bot _ eq_refl H).
Defined.

Lemma onStart_first_run_no_channel (w : World) (d : Database) (now : string) :
  Sql.select_lastrun d = None -> channels w = [] ->
  exists w', _onStart (Some d) None now w = (Throw TypeError, w')
             /\ outbox w' = outbox w.
Proof.
  intros Hsel Hch. eexists. split.
  - unfold _onStart, bind. rewrite loadBotUser_find. cbn.
    unfold _firstRunCheck, the_db, bind, gets, deref, ret. cbn. rewrite Hsel.
    unfold _welcomeMessage, bind, gets, deref, throw. cbn. rewrite Hch.
    reflexivity.
  - reflexivity.
Qed.

Lemma dispatch_posts (e : Event) (w : World) :
  exists posts,
    outbox (snd (dispatch e w)) = (outbox w ++ posts)%list
    /\ (List.length posts <= 1)%nat.
Proof.
  destruct e as [disk err now | err rnd m]; simpl.
  - destruct disk as [d|];
      [|exists []; split; [now rewrite app_nil_r | simpl; lia]].
    destruct err as [e|];
      [exists []; split; [now rewrite app_nil_r | simpl; lia]|].
    destruct (Sql.select_lastrun d) as [v|] eqn:Hsel.
    + rewrite (onStart_later_run w d now v Hsel).
      exists []. split; [now rewrite app_nil_r | simpl; lia].
    + destruct (channels w) as [|c cs] eqn:Hch.
      * destruct (onStart_first_run_no_channel w d now Hsel Hch)
          as [w' [-> Hout]].
        exists []. split; [now rewrite app_nil_r | simpl; lia].
      * rewrite (onStart_first_run w d now c cs Hsel Hch).
        eexists [_]. split; [reflexivity | simpl; lia].
  - destruct (onMessage_cases w m err rnd)
      as [[o H] | [[x [_ H]] | [d [c [r [_ [_ [_ H]]]]]]]]; rewrite H.
    + exists []. split; [now rewrite app_nil_r | simpl; lia].
    + exists []. split; [now rewrite app_nil_r | simpl; lia].
    + exists [joke_post c r]. split; [reflexivity | simpl; lia].
Qed.

(** X17. Over any run of events, however it ends, the messages posted
    before stay, in their order, and at most one message is added for each
    event. *)
Theorem X17_run_posts (events : list Event) (w : World) :
  exists posts,
    outbox (snd (run events w)) = (outbox w ++ posts)%list
    /\ (List.length posts <= List.length events)%nat.
Proof.
  revert w; induction events as [|e rest IH]; intros w.
  - exists []. split; [now rewrite app_nil_r | simpl; lia].
  - rewrite run_cons. destruct (dispatch_posts e w) as [p [Hp Hlen]].
    destruct (dispatch e w) as [[[]|x|code] w']; simpl in Hp.
    + destruct (IH w') as [q [Hq Hqlen]]. exists (p ++ q)%list.
      split; [now rewrite Hq, Hp, app_assoc|].
      rewrite length_app. simpl. lia.
    + exists p. split; [exact Hp | simpl; lia].
    + exists p. split; [exact Hp | simpl; lia].
Qed.

(** ** Serving the jokes in turn *)

Lemma map_bump_absent (id : Z) (rows : list JokeRow) :
  ~ In id (map row_id rows) -> map (Sql.bump id) rows = rows.
Proof.
  induction rows as [|r rows IH]; simpl; [reflexivity|]. intros Hnot.
  rewrite IH by tauto. f_equal.
  apply bump_fields. intros E. apply Hnot. now left.
Qed.

Lemma total_used_bump (rows : list JokeRow) (r : JokeRow) :
  NoDup (map row_id rows) -> In r rows ->
  total_used (map (Sql.bump (row_id r)) rows) = total_used rows + 1.
Proof.
  induction rows as [|a rows IH]; simpl; [intros _ []|].
  intros Hnd Hin. inversion Hnd as [|? ? Hnot Hrest]; subst.
  destruct (Z.eq_dec (row_id a) (row_id r)) as [E | E].
  - rewrite E in Hnot. rewrite (map_bump_absent _ _ Hnot).
    destruct (bump_fields (row_id r) a) as [_ [_ [Hup _]]].
    rewrite (Hup E). lia.
  - destruct Hin as [-> | Hin]; [congruence|].
    destruct (bump_fields (row_id r) a) as [_ [_ [_ Hsame]]].
    rewrite (Hsame E), (IH Hrest Hin). lia.
Qed.

Lemma total_used_at_least (k : Z) (rows : list JokeRow) :
  (forall r, In r rows -> k <= row_used r) ->
  Z.of_nat (List.length rows) * k <= total_used rows.
Proof.
  induction rows as [|a rows IH]; intros H; [simpl; lia|].
  assert (k <= row_used a) by (apply H; now left).
  assert (Z.of_nat (List.length rows) * k <= total_used rows)
    by (apply IH; intros r Hr; apply H; now right).
  change (total_used (a :: rows)) with (row_used a + total_used rows).
  change (List.length (a :: rows)) with (S (List.length rows)). lia.
Qed.

Lemma total_used_at_most_all (k : Z) (rows : list JokeRow) :
  (forall r, In r rows -> row_used r <= k) ->
  total_used rows = Z.of_nat (List.length rows) * k ->
  forall r, In r rows -> row_used r = k.
Proof.
  induction rows as [|a rows IH]; intros H Hsum; [intros r []|].
  assert (Ha : row_used a <= k) by (apply H; now left).
  assert (Hrest : forall r, In r rows -> row_used r <= k)
    by (intros r Hr; apply H; now right).
  assert (Hle : total_used rows <= Z.of_nat (List.length rows) * k).
  { clear -Hrest. induction rows as [|b rows IH]; [simpl; lia|].
    assert (row_used b <= k) by (apply Hrest; now left).
    assert (total_used rows <= Z.of_nat (List.length rows) * k)
      by (apply IH; intros r Hr; apply Hrest; now right).
    change (total_used (b :: rows)) with (row_used b + total_used rows).
    change (List.length (b :: rows)) with (S (List.length rows)). lia. }
  change (total_used (a :: rows)) with (row_used a + total_used rows) in Hsum.
  change (List.length (a :: rows)) with (S (List.length rows)) in Hsum.
  intros r [<- | Hr]; [lia|]. apply IH; [exact Hrest | lia | exact Hr].
Qed.

Lemma total_used_at_least_all (k : Z) (rows : list JokeRow) :
  (forall r, In r rows -> k <= row_used r) ->
  total_used rows = Z.of_nat (List.length rows) * k ->
  forall r, In r rows -> row_used r = k.
Proof.
  induction rows as [|a rows IH]; intros H Hsum; [intros r []|].
  assert (Ha : k <= row_used a) by (apply H; now left).
  assert (Hrest : forall r, In r rows -> k <= row_used r)
    by (intros r Hr; apply H; now right).
  pose proof (total_used_at_least k rows Hrest) as Hge.
  change (total_used (a :: rows)) with (row_used a + total_used rows) in Hsum.
  change (List.length (a :: rows)) with (S (List.length rows)) in Hsum.
  intros r [<- | Hr]; [lia|]. apply IH; [exact Hrest | lia | exact Hr].
Qed.

(** A balanced table whose counters are at least [k] and add up to one
    more than [k] each has every counter at [k + 1]. *)
Lemma balanced_full_round (k : Z) (rows : list JokeRow) :
  balanced rows ->
  (forall r, In r rows -> k <= row_used r) ->
  total_used rows = Z.of_nat (List.length rows) * (k + 1) ->
  forall r, In r rows -> row_used r = k + 1.
Proof.
  intros Hbal Hlow Hsum.
  assert (Hhigh : forall r, In r rows -> k + 1 <= row_used r).
  { intros r Hr. destruct (Z_le_gt_dec (k + 1) (row_used r)) as [|Hlt];
      [assumption|].
    assert (Hk : row_used r = k) by (specialize (Hlow r Hr); lia).
    assert (Hall : forall b, In b rows -> row_used b = k + 1).
    { apply total_used_at_most_all; [|exact Hsum].
      intros b Hb. specialize (Hbal b r Hb Hr). lia. }
    specialize (Hall r Hr). lia. }
  now apply total_used_at_least_all.
Qed.

Lemma map_bump_jokes (id : Z) (rows : list JokeRow) :
  map row_joke (map (Sql.bump id) rows) = map row_joke rows.
Proof.
  induction rows as [|r rows IH]; simpl; [reflexivity|].
  rewrite IH. f_equal. apply bump_fields.
Qed.

Lemma total_used_const (k : Z) (rows : list JokeRow) :
  (forall r, In r rows -> row_used r = k) ->
  total_used rows = Z.of_nat (List.length rows) * k.
Proof.
  induction rows as [|a rows IH]; intros H; [reflexivity|].
  assert (row_used a = k) by (apply H; now left).
  assert (total_used rows = Z.of_nat (List.length rows) * k)
    by (apply IH; intros r Hr; apply H; now right).
  change (total_used (a :: rows)) with (row_used a + total_used rows).
  change (List.length (a :: rows)) with (S (List.length rows)). lia.
Qed.

(** A run of answerable events on a balanced table with distinct ids:
    every event is answered, and the table stays balanced while the
    counters add up to one more for each event. *)
Lemma run_answerable (me : User) (events : list Event) :
  forall (w : World) (d : Database),
    db w = Some d -> user w = Some me -> jokes d <> [] ->
    NoDup (map row_id (jokes d)) -> safe_ids (jokes d) ->
    balanced (jokes d) ->
    Forall (answerable (name w) (channels w) me) events ->
    exists w' d',
      run events w = (Ret tt, w') /\ db w' = Some d'
      /\ map row_id (jokes d') = map row_id (jokes d)
      /\ map row_joke (jokes d') = map row_joke (jokes d)
      /\ balanced (jokes d')
      /\ total_used (jokes d')
         = total_used (jokes d) + Z.of_nat (List.length events)
      /\ (forall k, (forall r, In r (jokes d) -> k <= row_used r) ->
                    forall r, In r (jokes d') -> k <= row_used r)
      /\ List.length (outbox w')
         = (List.length (outbox w) + List.length events)%nat.
Proof.
  induction events as [|e rest IH]; intros w d Hdb Hu Hne Hnd Hsafe Hbal Hall.
  - exists w, d. split; [reflexivity|]. split; [exact Hdb|].
    split; [reflexivity|]. split; [reflexivity|]. split; [exact Hbal|].
    split; [simpl; lia|]. split; [intros k Hk; exact Hk | simpl; lia].
  - inversion Hall as [|? ? He Hrest]; subst.
    destruct e as [disk err now | err rnd m]; [destruct He|].
    destruct He as [-> [H1 [H2 [H3 [H4 [c0 [Hc0 Hm]]]]]]].
    destruct (onMessage_answers w d me m rnd c0 Hdb Hu
                (conj H1 (conj H2 (conj H3 H4))) Hc0 Hm Hne)
      as [c [r [_ [_ [_ [Hin [Hmin Hrun]]]]]]].
    rewrite (to_double_safe _ (Hsafe r Hin)) in Hrun.
    set (d1 := Sql.run (UpdateUsed (row_id r)) d) in *.
    set (w1 := set_db (Some d1) (add_post (joke_post c r) w)) in *.
    destruct (IH w1 d1) as [w' [d' [Hrun' [Hdb' [Hid [Hjk [Hb' [Ht [Hlow Hout]]]]]]]]].
    + reflexivity.
    + exact Hu.
    + simpl. destruct (jokes d); [congruence | discriminate].
    + simpl. now rewrite map_bump_ids.
    + now apply safe_ids_bump.
    + now apply balanced_bump.
    + exact Hrest.
    + exists w', d'. rewrite run_cons. simpl dispatch. rewrite Hrun.
      split; [exact Hrun'|]. split; [exact Hdb'|].
      split; [rewrite Hid; apply map_bump_ids|].
      split; [rewrite Hjk; apply map_bump_jokes|].
      split; [exact Hb'|].
      split.
      * rewrite Ht. simpl jokes. rewrite (total_used_bump _ r Hnd Hin).
        change (List.length (Incoming None rnd m :: rest))
          with (S (List.length rest)). lia.
      * split.
        -- intros k Hk. apply Hlow. simpl. intros x Hx.
           apply in_map_iff in Hx as [y [<- Hy]].
           pose proof (served_step_bump (row_id r) y) as [_ [_ Hstep]].
           specialize (Hk y Hy). lia.
        -- rewrite Hout. simpl. rewrite length_app. simpl. lia.
Qed.

(** On a quiet line, as many answerable events as there are jokes, all
    used [k] times, leave every joke used [k + 1] times. *)
Lemma run_round_robin (w : World) (d : Database) (me : User)
        (events : list Event) (k : Z) :
  db w = Some d -> user w = Some me ->
  NoDup (map row_id (jokes d)) -> safe_ids (jokes d) ->
  (forall r, In r (jokes d) -> row_used r = k) ->
  Forall (answerable (name w) (channels w) me) events ->
  List.length events = List.length (jokes d) ->
  exists w' d',
    run events w = (Ret tt, w') /\ db w' = Some d'
    /\ map row_id (jokes d') = map row_id (jokes d)
    /\ map row_joke (jokes d') = map row_joke (jokes d)
    /\ (forall r, In r (jokes d') -> row_used r = k + 1)
    /\ List.length (outbox w')
       = (List.length (outbox w) + List.length events)%nat.
Proof.
  intros Hdb Hu Hnd Hsafe Hk Hall Hlen.
  assert (Hcase : jokes d = [] \/ jokes d <> [])
    by (destruct (jokes d); [now left | right; discriminate]).
  destruct Hcase as [Hj | Hne].
  - rewrite Hj in Hlen. destruct events; [|discriminate]. exists w, d.
    split; [reflexivity|]. split; [exact Hdb|]. split; [reflexivity|].
    split; [reflexivity|]. split; [|simpl; lia].
    rewrite Hj. intros r [].
  - assert (Hbal : balanced (jokes d)).
    { intros x y Hx Hy. rewrite (Hk x Hx), (Hk y Hy). lia. }
    destruct (run_answerable me events w d Hdb Hu Hne Hnd Hsafe Hbal Hall)
      as [w' [d' [Hrun [Hdb' [Hid [Hjk [Hb' [Ht [Hlow Hout]]]]]]]]].
    exists w', d'.
    split; [exact Hrun|]. split; [exact Hdb'|]. split; [exact Hid|].
    split; [exact Hjk|]. split; [|exact Hout].
    assert (Hn : List.length (jokes d') = List.length (jokes d)).
    { rewrite <- (length_map row_id (jokes d')), Hid. apply length_map. }
    apply (balanced_full_round k); [exact Hb'| |].
    + apply Hlow. intros r Hr. rewrite (Hk r Hr). lia.
    + rewrite Ht, Hn, Hlen. rewrite (total_used_const k (jokes d) Hk). lia.
Qed.


(** ** The handler step by step: quiet and crowded lines *)


Lemma complete_get (w : World) (d : Database) (m : Message) (rnd : nat -> Z)
      (c : Channel) (r : JokeRow) :
  db w = Some d ->
  _getChannelById (msg_channel m) w = (Ret (Some c), w) ->
  Sql.least_used_row rnd d = Some r ->
  complete (PendingGet m) None rnd w
  = (Ret (Some (PendingRun (UpdateUsed (to_double (row_id r))))),
     add_post (joke_post c r) w).
Proof.
  intros Hdb Hc Hr. unfold complete, reply_callback, bind.
  rewrite (the_db_open w d Hdb), Hc.
  unfold Sql.select_least_used. rewrite Hr.
  unfold the_db, postMessageToChannel, modify, bind, gets, deref, ret.
  cbn. now rewrite Hdb.
Qed.

Lemma complete_run (w : World) (d : Database) (s : Stmt)
      (err : option string) (rnd : nat -> Z) :
  db w = Some d ->
  complete (PendingRun s) err rnd w
  = (Ret None, set_db (Some (Sql.run s d)) w).
Proof.
  intros Hdb. unfold complete, db_run, the_db, modify, bind, gets, deref, ret.
  now rewrite Hdb.
Qed.



Lemma step_complete_head (op : Pending) (rest : list Pending)
      (err : option string) (rnd : nat -> Z) (w : World) :
  step (Complete 0 err rnd) (w, op :: rest)
  = match complete op err rnd w with
    | (Ret next, w') => (Ret tt, (w', (rest ++ issued next)%list))
    | (Throw e, w') => (Throw e, (w', rest))
    | (Exit c, w') => (Exit c, (w', rest))
    end.
Proof. reflexivity. Qed.

Lemma step_emit (m : Message) (waiting : list Pending) (w : World) :
  step (Emit m) (w, waiting)
  = match onMessage_issue m w with
    | (Ret op, w') => (Ret tt, (w', (waiting ++ issued op)%list))
    | (Throw e, w') => (Throw e, (w', waiting))
    | (Exit c, w') => (Exit c, (w', waiting))
    end.
Proof. reflexivity. Qed.

(** One event on a quiet line ends as [_onMessage] says, with nothing
    left waiting. *)
Lemma quiet_round_onMessage (w : World) (rnd : nat -> Z) (m : Message) :
  steps (quiet_round (rnd, m)) (w, [])
  = (fst (_onMessage None rnd m w), (snd (_onMessage None rnd m w), [])).
Proof.
  destruct (onMessage_test_world w m) as [o Ho].
  unfold quiet_round, _onMessage, bind. simpl fst. simpl snd. rewrite Ho.
  cbn [steps]. rewrite step_emit. unfold onMessage_issue, bind. rewrite Ho.
  destruct o as [[|]|e|code]; try reflexivity.
  destruct (db w) as [d|] eqn:Hdb.
  - rewrite (the_db_open w d Hdb). cbn [ret issued app].
    rewrite step_complete_head.
    assert (Hlook : exists found,
               _getChannelById (msg_channel m) w = (Ret found, w))
      by (eexists; reflexivity).
    destruct Hlook as [[c|] Hc].
    + destruct (Sql.least_used_row rnd d) as [r|] eqn:Hr.
      * rewrite (complete_get w d m rnd c r Hdb Hc Hr).
        rewrite (reply_posts_and_marks w d m rnd Hdb c r Hc Hr).
        cbn [issued app]. rewrite step_complete_head.
        rewrite (complete_run (add_post (joke_post c r) w) d _ None rnd Hdb).
        reflexivity.
      * unfold complete, reply_callback, _replyWithRandomJoke,
          Sql.select_least_used, bind.
        now rewrite (the_db_open w d Hdb), Hc, Hr.
    + rewrite (reply_without_channel w d m rnd Hdb Hc).
      unfold complete, reply_callback, bind.
      now rewrite (the_db_open w d Hdb), Hc.
  - unfold _replyWithRandomJoke, the_db, bind, gets, deref, throw.
    now rewrite Hdb.
Qed.

Lemma steps_app (l1 l2 : list Step) (p : Process) :
  steps (l1 ++ l2) p
  = match steps l1 p with
    | (Ret _, p') => steps l2 p'
    | (Throw e, p') => (Throw e, p')
    | (Exit c, p') => (Exit c, p')
    end.
Proof.
  revert p; induction l1 as [|s l1 IH]; intros p; simpl; [reflexivity|].
  destruct (step s p) as [[[]|e|c] p']; [apply IH | reflexivity | reflexivity].
Qed.

(** A run of events on a quiet line, step by step, ends as [run] says. *)
Lemma quiet_rounds_run (rounds : list ((nat -> Z) * Message)) (w : World) :
  steps (flat_map quiet_round rounds) (w, [])
  = (fst (run (map (fun round => Incoming None (fst round) (snd round)) rounds) w),
     (snd (run (map (fun round => Incoming None (fst round) (snd round)) rounds) w),
      [])).
Proof.
  revert w; induction rounds as [|[rnd m] rest IH]; intros w; [reflexivity|].
  change (flat_map quiet_round ((rnd, m) :: rest))
    with (quiet_round (rnd, m) ++ flat_map quiet_round rest)%list.
  rewrite steps_app, quiet_round_onMessage.
  simpl map. rewrite run_cons. simpl dispatch.
  destruct (_onMessage None rnd m w) as [[[]|e|c] w']; simpl fst; simpl snd;
    [apply IH | reflexivity | reflexivity].
Qed.

(** A joke whose id is 2^53 + 1 is posted, the statement is run for the
    id 2^53 that the callback received, and the joke is never marked. *)
Example big_id_never_marked (rnd : nat -> Z) :
  _onMessage None rnd example_event (ready big_id_jokes [general])
  = (Ret tt,
     set_db (Some (Sql.run (UpdateUsed 9007199254740992) big_id_jokes))
            (add_post {| post_channel := "general"; post_text := "J1";
                         post_as_user := true |}
                      (ready big_id_jokes [general])))
  /\ jokes (Sql.run (UpdateUsed 9007199254740992) big_id_jokes)
     = jokes big_id_jokes.
Proof. split; reflexivity. Qed.

(** X12. On a quiet line (the engine answers the query of the event and
    applies its statement before anything else happens), with the store
    open, distinct joke ids that a double holds exactly and no joke used
    two times more than another, handling an event step by step ends with
    nothing left waiting and with the table still so: serving the least
    used joke keeps the counters within one of each other. *)
Theorem X12_quiet_round_balanced (w : World) (d : Database) (m : Message)
        (rnd : nat -> Z) :
  db w = Some d -> NoDup (map row_id (jokes d)) -> safe_ids (jokes d) ->
  balanced (jokes d) ->
  exists o w' d',
    steps (quiet_round (rnd, m)) (w, []) = (o, (w', []))
    /\ db w' = Some d'
    /\ NoDup (map row_id (jokes d'))
    /\ safe_ids (jokes d')
    /\ balanced (jokes d').
Proof.
  intros Hdb Hnd Hsafe Hbal.
  destruct (onMessage_balanced w d m None rnd Hdb Hnd Hsafe Hbal)
    as [d' [Hd' [Hnd' [Hsafe' Hbal']]]].
  exists (fst (_onMessage None rnd m w)), (snd (_onMessage None rnd m w)), d'.
  split; [apply quiet_round_onMessage|]. repeat split; assumption.
Qed.

Lemma X12_quiet_round_balanced_witness :
  db (ready three_jokes [general]) = Some three_jokes
  /\ NoDup (map row_id (jokes three_jokes))
  /\ safe_ids (jokes three_jokes)
  /\ balanced (jokes three_jokes)
  /\ exists o w' d',
      steps (quiet_round (fun _ => 0, example_event))
            (ready three_jokes [general], [])
      = (o, (w', []))
      /\ db w' = Some d'
      /\ balanced (jokes d').
Proof.
  assert (Hnd : NoDup (map row_id (jokes three_jokes))).
  { simpl. repeat constructor; simpl; intuition discriminate. }
  assert (Hsafe : safe_ids (jokes three_jokes)).
  { intros r [<- | [<- | [<- | []]]]; reflexivity. }
  assert (Hbal : balanced (jokes three_jokes)).
  { intros a b Ha Hb. simpl in Ha, Hb.
    destruct Ha as [<- | [<- | [<- | []]]], Hb as [<- | [<- | [<- | []]]];
      simpl; lia. }
  split; [reflexivity|]. split; [exact Hnd|]. split; [exact Hsafe|].
  split; [exact Hbal|].
  destruct (X12_quiet_round_balanced (ready three_jokes [general]) three_jokes
              example_event (fun _ => 0) eq_refl Hnd Hsafe Hbal)
    as [o [w' [d' [Hrun [Hd' [_ [_ Hb']]]]]]].
  exists o, w', d'. repeat split; assumption.
Defined.

(** X18. On a quiet line, with the store open, the identity resolved,
    distinct joke ids that a double holds exactly and every joke used [k]
    times, as many answerable events as there are jokes, handled step by
    step one after the other, all complete with nothing left waiting: one
    message is posted for each event, the ids and the texts of the jokes
    are as they were and every joke is used [k + 1] times.  Each joke has
    been served once, whatever the random keys were. *)
Theorem X18_quiet_round_robin (w : World) (d : Database) (me : User)
        (rounds : list ((nat -> Z) * Message)) (k : Z) :
  db w = Some d -> user w = Some me ->
  NoDup (map row_id (jokes d)) -> safe_ids (jokes d) ->
  (forall r, In r (jokes d) -> row_used r = k) ->
  Forall (fun round => answerable (name w) (channels w) me
                                  (Incoming None (fst round) (snd round)))
         rounds ->
  List.length rounds = List.length (jokes d) ->
  exists w' d',
    steps (flat_map quiet_round rounds) (w, []) = (Ret tt, (w', []))
    /\ db w' = Some d'
    /\ map row_id (jokes d') = map row_id (jokes d)
    /\ map row_joke (jokes d') = map row_joke (jokes d)
    /\ (forall r, In r (jokes d') -> row_used r = k + 1)
    /\ List.length (outbox w')
       = (List.length (outbox w) + List.length rounds)%nat.
Proof.
  intros Hdb Hu Hnd Hsafe Hk Hall Hlen.
  destruct (run_round_robin w d me
              (map (fun round => Incoming None (fst round) (snd round)) rounds)
              k Hdb Hu Hnd Hsafe Hk)
    as [w' [d' [Hrun [Hd' [Hid [Hjk [Hused Hout]]]]]]].
  - apply Forall_map. exact Hall.
  - now rewrite length_map.
  - exists w', d'. rewrite quiet_rounds_run, Hrun.
    rewrite length_map in Hout. repeat split; assumption.
Qed.

Lemma X18_quiet_round_robin_witness :
  db (ready fresh_jokes [general]) = Some fresh_jokes
  /\ NoDup (map row_id (jokes fresh_jokes))
  /\ safe_ids (jokes fresh_jokes)
  /\ (forall r, In r (jokes fresh_jokes) -> row_used r = 0)
  /\ exists w' d',
      steps (flat_map quiet_round
                      [(fun _ => 4, example_event); (fun _ => 2, example_event)])
            (ready fresh_jokes [general], [])
      = (Ret tt, (w', []))
      /\ db w' = Some d'
      /\ (forall r, In r (jokes d') -> row_used r = 1)
      /\ List.length (outbox w') = 2%nat.
Proof.
  assert (Hnd : NoDup (map row_id (jokes fresh_jokes))).
  { simpl. repeat constructor; simpl; intuition discriminate. }
  assert (Hsafe : safe_ids (jokes fresh_jokes)).
  { intros r [<- | [<- | []]]; reflexivity. }
  assert (Hk : forall r, In r (jokes fresh_jokes) -> row_used r = 0).
  { intros r [<- | [<- | []]]; reflexivity. }
  assert (Hans : forall rnd,
             answerable (name (ready fresh_jokes [general]))
                        (channels (ready fresh_jokes [general])) the_bot
                        (Incoming None rnd example_event)).
  { intros rnd.
    destruct (example_event_passes (ready fresh_jokes [general]) the_bot
                eq_refl eq_refl) as [H1 [H2 [H3 H4]]].
    split; [reflexivity|]. split; [exact H1|]. split; [exact H2|].
    split; [exact H3|]. split; [exact H4|].
    exists general. split; [now left | reflexivity]. }
  split; [reflexivity|]. split; [exact Hnd|]. split; [exact Hsafe|].
  split; [exact Hk|].
  assert (Hrounds : Forall (fun round : (nat -> Z) * Message =>
                           answerable (name (ready fresh_jokes [general]))
                                      (channels (ready fresh_jokes [general]))
                                      the_bot
                                      (Incoming None (fst round) (snd round)))
                        [(fun _ => 4, example_event);
                         (fun _ => 2, example_event)]).
  { apply Forall_cons; [exact (Hans _)|].
    apply Forall_cons; [exact (Hans _) | apply Forall_nil]. }
  destruct (X18_quiet_round_robin (ready fresh_jokes [general]) fresh_jokes
              the_bot
              [(fun _ => 4, example_event); (fun _ => 2, example_event)]
              0 eq_refl eq_refl Hnd Hsafe Hk Hrounds eq_refl)
    as [w' [d' [Hrun [Hdb [_ [_ [Hall Hout]]]]]]].
  exists w', d'. split; [exact Hrun|]. split; [exact Hdb|].
  split; [exact Hall | exact Hout].
Defined.



